(** * prompt-alchemy utility scripts: a shallow embedding

    Three independent Python scripts are modelled, one module each:
    - [Extractor]  scripts/extract-mermaid-diagrams.py
    - [Qdrant]     qdrant-examples.py (class QdrantClient)
    - [McpProbe]   test-mcp.py

    Python [str] values are Rocq [string]s (sequences of 8-bit characters;
    every character the scripts test for is ASCII).  Exceptions are values
    of an explicit result type, the file system and the child process are
    explicit state. *)

From Stdlib Require Import String Ascii ZArith List Lia.
From stdpp Require Import base option list gmap strings pretty.
From Equations Require Import Equations.

Local Open Scope string_scope.
Local Open Scope list_scope.

(** ** Strings, as the scripts use them *)
Module Text.

(** [s.startswith(p)], returning the remainder [s[len(p):]] on success. *)
Fixpoint strip_prefix (p s : string) : option string :=
  match p, s with
  | EmptyString, _ => Some s
  | String a p', String b s' =>
      if Ascii.eqb a b then strip_prefix p' s' else None
  | String _ _, EmptyString => None
  end.

Definition startswith (s p : string) : bool :=
  match strip_prefix p s with Some _ => true | None => false end.

(** [c in s] for a single character. *)
Fixpoint contains (c : ascii) (s : string) : bool :=
  match s with
  | EmptyString => false
  | String a s' => Ascii.eqb a c || contains c s'
  end.

(** [s[n:]] and [s[:n]] for [0 <= n]. *)
Fixpoint drop (n : nat) (s : string) : string :=
  match n, s with
  | O, _ => s
  | S n', String _ s' => drop n' s'
  | S _, EmptyString => EmptyString
  end.

Fixpoint take (n : nat) (s : string) : string :=
  match n, s with
  | O, _ => EmptyString
  | S n', String a s' => String a (take n' s')
  | S _, EmptyString => EmptyString
  end.

(** [s.rfind(c)] for a single character: the last index of [c], or -1. *)
Fixpoint rfind (c : ascii) (s : string) : Z :=
  match s with
  | EmptyString => (-1)%Z
  | String a s' =>
      let r := rfind c s' in
      if (0 <=? r)%Z then (r + 1)%Z
      else if Ascii.eqb a c then 0%Z else (-1)%Z
  end.

(** [s.endswith(c)] for a single character. *)
Fixpoint endswith_char (s : string) (c : ascii) : bool :=
  match s with
  | EmptyString => false
  | String a EmptyString => Ascii.eqb a c
  | String _ s' => endswith_char s' c
  end.

(** [s.replace(old, new)] for a non-empty [old]: every non-overlapping
    occurrence, left to right.  [skip] counts the characters of an
    occurrence still to be passed over. *)
Fixpoint replace_from (old new : string) (skip : nat) (s : string) : string :=
  match s with
  | EmptyString => EmptyString
  | String a s' =>
      match skip with
      | S k => replace_from old new k s'
      | O =>
          match old, strip_prefix old s with
          | String _ old', Some _ =>
              new +:+ replace_from old new (String.length old') s'
          | _, _ => String a (replace_from old new 0 s')
          end
      end
  end.

Definition replace (s old new : string) : string := replace_from old new 0 s.

(** [str.isspace] on the 8-bit characters. *)
Definition is_space (a : ascii) : bool :=
  let n := nat_of_ascii a in
  ((9 <=? n)%nat && (n <=? 13)%nat) || ((28 <=? n)%nat && (n <=? 32)%nat).

Fixpoint lstrip (s : string) : string :=
  match s with
  | String a s' => if is_space a then lstrip s' else s
  | EmptyString => EmptyString
  end.

Fixpoint rstrip (s : string) : string :=
  match s with
  | EmptyString => EmptyString
  | String a s' =>
      match rstrip s' with
      | EmptyString => if is_space a then EmptyString else String a EmptyString
      | r => String a r
      end
  end.

(** [s.strip()] *)
Definition strip (s : string) : string := rstrip (lstrip s).

End Text.

(** ** The fragment of [re] the extractor uses

    A pattern is a sequence of literals and lazy capture groups [(.*?)]
    compiled with [re.DOTALL] (so [.] matches every character, newline
    included). *)
Module Regex.
Import Text.

Inductive item :=
| Lit (s : string)
| LazyGroup.

(** Backtracking match of [items] at the head of the subject: the groups
    captured, in order, and the unconsumed rest.  A lazy group first tries
    to stop, then takes one more character. *)
Fixpoint match_items (items : list item) : string → option (list string * string) :=
  match items with
  | [] => λ s, Some ([], s)
  | Lit p :: items' => λ s,
      match strip_prefix p s with
      | Some rest => match_items items' rest
      | None => None
      end
  | LazyGroup :: items' =>
      fix lazy (s : string) : option (list string * string) :=
        match match_items items' s with
        | Some (caps, rest) => Some (EmptyString :: caps, rest)
        | None =>
            match s with
            | EmptyString => None
            | String c s' =>
                match lazy s' with
                | Some (g :: caps, rest) => Some (String c g :: caps, rest)
                | _ => None
                end
            end
        end
  end.

(** [re.findall] for a pattern with one group: the group of every
    non-overlapping match, scanning left to right.  After a match the scan
    resumes where the match ended (one character further when the match
    was empty); without a match at a position it moves one character on. *)
Equations findall (items : list item) (s : string) : list string
  by wf (String.length s) lt :=
  findall items s with match_items items s := {
    | Some (caps, rest)
        with decide (String.length rest < String.length s) := {
        | left _ => hd EmptyString caps :: findall items rest
        | right _ with s := {
            | EmptyString => [hd EmptyString caps]
            | String _ s' => hd EmptyString caps :: findall items s' } }
    | None with s := {
        | EmptyString => []
        | String _ s' => findall items s' } }.

End Regex.

(** ** Python control flow: exceptions over explicit state *)
Module Py.

Inductive exn :=
| SystemExit (code : Z)
| KeyboardInterrupt
| FileNotFoundError
| FileExistsError
| IsADirectoryError
| IndexError
| BrokenPipeError
| TimeoutExpired
| UnboundLocalError
| ConnectionError
| JSONDecodeError
| AttributeError
| KeyError
| TypeError.

(** [isinstance(e, Exception)]: everything but the two classes that derive
    from [BaseException] directly. *)
Definition is_Exception (e : exn) : bool :=
  match e with
  | SystemExit _ | KeyboardInterrupt => false
  | _ => true
  end.

(** How a computation ends: with a value, with an exception, or not at
    all, blocked for ever in a call that never returns. *)
Inductive result (A : Type) :=
| Ok (a : A)
| Raise (e : exn)
| Hang.
Arguments Ok {A} a.
Arguments Raise {A} e.
Arguments Hang {A}.

(** A computation over a state [S]; the state reached is kept when an
    exception is raised or the computation blocks. *)
Definition M (S A : Type) : Type := S → result A * S.

Definition ret {S A} (a : A) : M S A := λ s, (Ok a, s).
Definition raise {S A} (e : exn) : M S A := λ s, (Raise e, s).
Definition bind {S A B} (m : M S A) (k : A → M S B) : M S B :=
  λ s, match m s with
       | (Ok a, s') => k a s'
       | (Raise e, s') => (Raise e, s')
       | (Hang, s') => (Hang, s')
       end.

(** [try: body / except <class>: handler], [catches] being the
    [isinstance] test of the clause. *)
Definition try_except {S A} (body : M S A) (catches : exn → bool)
    (handler : exn → M S A) : M S A :=
  λ s, match body s with
       | (Ok a, s') => (Ok a, s')
       | (Raise e, s') => if catches e then handler e s' else (Raise e, s')
       | (Hang, s') => (Hang, s')
       end.

(** [try: body / finally: final]: [final] runs whenever [body] ends; an
    exception of [final] replaces the outcome of [body]. *)
Definition try_finally {S A} (body : M S A) (final : M S unit) : M S A :=
  λ s, match body s with
       | (Hang, s') => (Hang, s')
       | (r, s') =>
           match final s' with
           | (Ok _, s'') => (r, s'')
           | (Raise e, s'') => (Raise e, s'')
           | (Hang, s'') => (Hang, s'')
           end
       end.

(** [for x in xs: acc = body(x, acc)] *)
Fixpoint for_each {S A B} (xs : list A) (acc : B) (body : A → B → M S B)
    : M S B :=
  match xs with
  | [] => ret acc
  | x :: xs' => bind (body x acc) (λ acc', for_each xs' acc' body)
  end.

(** [while True: body], where [body] yields [Some a] for [return a] and
    [None] to go round again.  [fuel] bounds the number of rounds; a loop
    that is still running when it is spent counts as not ending. *)
Fixpoint while_true {S A} (fuel : nat) (body : M S (option A)) : M S A :=
  match fuel with
  | O => λ s, (Hang, s)
  | Datatypes.S fuel' =>
      bind body (λ r, match r with
                      | Some a => ret a
                      | None => while_true fuel' body
                      end)
  end.

(** [enumerate(xs, start)] *)
Fixpoint enumerate {A} (start : nat) (xs : list A) : list (nat * A) :=
  match xs with
  | [] => []
  | x :: xs' => (start, x) :: enumerate (S start) xs'
  end.

(** [xs[i]] *)
Definition index {S A} (xs : list A) (i : nat) : M S A :=
  match xs !! i with
  | Some x => ret x
  | None => raise IndexError
  end.

(** The exit status of the interpreter for the outcome of a script, if
    the script ends. *)
Definition exit_status {A} (r : result A) : option Z :=
  match r with
  | Ok _ => Some 0%Z
  | Raise (SystemExit code) => Some code
  | Raise _ => Some 1%Z
  | Hang => None
  end.

Global Instance M_ret {S} : MRet (M S) := λ A, ret.
Global Instance M_bind {S} : MBind (M S) := λ A B k m, bind m k.

End Py.

(** ** posixpath *)
Module OsPath.
Import Text.

Definition sep : ascii := "/"%char.
Definition extsep : ascii := "."%char.

(** [i = p.rfind('/') + 1; return p[i:]] *)
Definition basename (p : string) : string :=
  drop (Z.to_nat (rfind sep p + 1)) p.

Fixpoint all_dots (s : string) : bool :=
  match s with
  | EmptyString => true
  | String a s' => Ascii.eqb a extsep && all_dots s'
  end.

(** [genericpath._splitext]: split at the last dot of the last
    component, unless only dots precede it there. *)
Definition splitext (p : string) : string * string :=
  let sepIndex := rfind sep p in
  let dotIndex := rfind extsep p in
  if (sepIndex <? dotIndex)%Z
     && negb (all_dots (take (Z.to_nat (dotIndex - (sepIndex + 1)))
                             (drop (Z.to_nat (sepIndex + 1)) p)))
  then (take (Z.to_nat dotIndex) p, drop (Z.to_nat dotIndex) p)
  else (p, EmptyString).

(** [posixpath.join(a, b)] *)
Definition join (a b : string) : string :=
  if startswith b (String sep EmptyString) then b
  else match a with
       | EmptyString => a +:+ b
       | _ => if endswith_char a sep then a +:+ b
              else a +:+ String sep EmptyString +:+ b
       end.

End OsPath.

(** ** scripts/extract-mermaid-diagrams.py *)
Module Extractor.
Import Text Py.

(** The file system is a table from path strings to nodes.  A file holds
    its text as text-mode [open] presents it (a line ends with the newline
    character), and two path strings name two nodes.  Permissions, links,
    encodings and the intermediate directories of a path are outside the
    model. *)
Inductive node :=
| File (content : string)
| Dir.

(** What the script asks of the operating system, in order. *)
Inductive event :=
| Stdout (line : string)
| AskExists (path : string)
| Makedirs (path : string)
| OpenRead (path : string)
| OpenWrite (path content : string).

Record world := World { fs : gmap string node; log : list event }.

Definition emit (e : event) : M world unit :=
  λ w, (Ok tt, World (fs w) (log w ++ [e])).

Definition print (line : string) : M world unit := emit (Stdout line).

(** [os.path.exists(p)] *)
Definition os_path_exists (p : string) : M world bool :=
  λ w, (Ok (match fs w !! p with Some _ => true | None => false end),
        World (fs w) (log w ++ [AskExists p])).

(** [os.makedirs(p, exist_ok=True)] *)
Definition os_makedirs (p : string) : M world unit :=
  λ w, let log' := log w ++ [Makedirs p] in
       match p, fs w !! p with
       | EmptyString, _ => (Raise FileNotFoundError, World (fs w) log')
       | _, Some (File _) => (Raise FileExistsError, World (fs w) log')
       | _, Some Dir => (Ok tt, World (fs w) log')
       | _, None => (Ok tt, World (<[p := Dir]> (fs w)) log')
       end.

(** [with open(p, 'r') as f: return f.read()] *)
Definition read_text (p : string) : M world string :=
  λ w, let w' := World (fs w) (log w ++ [OpenRead p]) in
       match fs w !! p with
       | Some (File content) => (Ok content, w')
       | Some Dir => (Raise IsADirectoryError, w')
       | None => (Raise FileNotFoundError, w')
       end.

(** [with open(p, 'w') as f: f.write(content)] *)
Definition write_text (p content : string) : M world unit :=
  λ w, let log' := log w ++ [OpenWrite p content] in
       match fs w !! p with
       | Some Dir => (Raise IsADirectoryError, World (fs w) log')
       | _ => (Ok tt, World (<[p := File content]> (fs w)) log')
       end.

Definition nl : string := String (ascii_of_nat 10) EmptyString.

Definition fence_open : string := "```mermaid" +:+ nl.
Definition fence_close : string := nl +:+ "```".

(** [r'```mermaid\n(.*?)\n```'] *)
Definition mermaid_pattern : list Regex.item :=
  [Regex.Lit fence_open; Regex.LazyGroup; Regex.Lit fence_close].

(** [f"{base_name}-diagram-{i}.mmd"] *)
Definition diagram_name (base_name : string) (i : nat) : string :=
  base_name +:+ "-diagram-" +:+ pretty i +:+ ".mmd".

(** [os.path.splitext(os.path.basename(input_file))[0]] *)
Definition base_name (input_file : string) : string :=
  fst (OsPath.splitext (OsPath.basename input_file)).

(** The body of the loop over [enumerate(diagrams, 1)]. *)
Definition save_diagram (output_dir base_name : string)
    : nat * string → list string → M world (list string) :=
  λ '(i, diagram) diagram_files,
    let output_file := OsPath.join output_dir (diagram_name base_name i) in
    write_text output_file diagram ;;
    print ("Extracted diagram " +:+ pretty i +:+ " to " +:+ output_file) ;;
    ret (diagram_files ++ [output_file]).

Definition extract_mermaid_diagrams (input_file output_dir : string)
    : M world (list string) :=
  os_makedirs output_dir ;;
  content ← read_text input_file;
  let diagrams := Regex.findall mermaid_pattern content in
  for_each (enumerate 1 diagrams) []
    (save_diagram output_dir (base_name input_file)).

Definition default_output_dir : string := "docs/assets/diagrams/mermaid".

Definition usage : string :=
  "Usage: extract-mermaid-diagrams.py <markdown-file> [output-dir]".

Definition sys_exit {A} (code : Z) : M world A := raise (SystemExit code).

Definition main (argv : list string) : M world unit :=
  if (length argv <? 2)%nat then
    print usage ;; sys_exit 1
  else
    input_file ← index argv 1;
    output_dir ← (if (2 <? length argv)%nat then index argv 2
                   else ret default_output_dir);
    found ← os_path_exists input_file;
    if negb found then
      print ("Error: File " +:+ input_file +:+ " not found") ;; sys_exit 1
    else
      diagram_files ← extract_mermaid_diagrams input_file output_dir;
      print (nl +:+ "Extracted " +:+ pretty (length diagram_files)
                +:+ " diagrams") ;;
      print (nl +:+ "To render these diagrams, run:") ;;
      for_each diagram_files tt
        (λ file _,
           let svg_file := replace file ".mmd" ".svg" in
           print ("mmdc -i " +:+ file +:+ " -o " +:+ svg_file
                     +:+ " --theme default --backgroundColor transparent")).

(** Running the script: the exit status and the world it leaves. *)
Definition run (argv : list string) (w : world) : option Z * world :=
  let '(r, w') := main argv w in (exit_status r, w').

(** *** Vocabulary of the statements *)

(** [s] holds a fenced block with text [body], after [pre] and before
    [rest]. *)
Definition block_at (s pre body rest : string) : Prop :=
  s = pre +:+ fence_open +:+ body +:+ fence_close +:+ rest.

(** The first block of [s]: no block opens earlier, and of the blocks
    opening at the same place none closes earlier. *)
Definition first_block (s pre body rest : string) : Prop :=
  block_at s pre body rest ∧
  ∀ pre' body' rest', block_at s pre' body' rest' →
    (String.length pre < String.length pre')%nat ∨
    (String.length pre = String.length pre' ∧
     (String.length body ≤ String.length body')%nat).

(** The fenced blocks of a document, in order and without overlap: each is
    the first block of what follows the previous one. *)
Inductive blocks : string → list string → Prop :=
| blocks_nil s :
    (∀ pre body rest, ¬ block_at s pre body rest) → blocks s []
| blocks_cons s pre body rest bodies :
    first_block s pre body rest → blocks rest bodies →
    blocks s (body :: bodies).

(** The paths of diagrams [1 .. n] of [input_file] under [output_dir]. *)
Definition output_path (input_file output_dir : string) (i : nat) : string :=
  OsPath.join output_dir (diagram_name (base_name input_file) i).

Definition output_paths (input_file output_dir : string) (n : nat)
    : list string :=
  map (output_path input_file output_dir) (seq 1 n).

(** [open(p, 'w')] succeeds: no directory sits at [p]. *)
Definition writable (m : gmap string node) (p : string) : bool :=
  match m !! p with Some Dir => false | _ => true end.

(** [os.makedirs(p, exist_ok=True)] succeeds. *)
Definition creatable (m : gmap string node) (p : string) : bool :=
  match p, m !! p with
  | EmptyString, _ => false
  | _, Some (File _) => false
  | _, _ => true
  end.


(** The file system after [os.makedirs(p, exist_ok=True)] succeeded. *)
Definition mkdir (m : gmap string node) (p : string) : gmap string node :=
  match m !! p with None => <[p := Dir]> m | Some _ => m end.

(** The file system after diagrams [ds] were saved as numbers
    [start, start + 1, ...]. *)
Fixpoint write_all (input_file output_dir : string) (m : gmap string node)
    (start : nat) (ds : list string) : gmap string node :=
  match ds with
  | [] => m
  | d :: ds' =>
      write_all input_file output_dir
        (<[output_path input_file output_dir start := File d]> m)
        (S start) ds'
  end.

(** *** Sample inputs *)

(** A document with two fenced blocks, and a world that holds it. *)
Definition notes : string :=
  "# Notes" +:+ nl +:+
  "```mermaid" +:+ nl +:+ "graph TD" +:+ nl +:+ "  A --> B" +:+ nl +:+ "```" +:+ nl +:+
  "text" +:+ nl +:+
  "```mermaid" +:+ nl +:+ "sequenceDiagram" +:+ nl +:+ "```" +:+ nl.

Definition notes_bodies : list string :=
  ["graph TD" +:+ nl +:+ "  A --> B"; "sequenceDiagram"].

Definition notes_world : world :=
  World {[ "docs/notes.md" := File notes ]} [].

End Extractor.

(** ** Python values that come out of [json.loads] and go into [json.dumps] *)
Module Json.
Import Py.

(** [None], [bool], [int], [float] (finite, as [m * 10^e]), [str], [list]
    and [dict] with [str] keys. *)
#[warnings="-register-all"]
Inductive value :=
| JNull
| JBool (b : bool)
| JInt (n : Z)
| JFloat (m e : Z)
| JStr (s : string)
| JList (xs : list value)
| JDict (kvs : gmap string value).

(** [bool(v)] *)
Definition truthy (v : value) : bool :=
  match v with
  | JNull => false
  | JBool b => b
  | JInt n => negb (n =? 0)%Z
  | JFloat m _ => negb (m =? 0)%Z
  | JStr s => negb (String.eqb s "")
  | JList xs => match xs with [] => false | _ => true end
  | JDict kvs => negb (bool_decide (kvs = ∅))
  end.

(** [v == s] for a [str] [s] *)
Definition eq_str (v : value) (s : string) : bool :=
  match v with
  | JStr t => String.eqb t s
  | _ => false
  end.

Section ops.
Context {S : Type}.

(** [v.get(key, default)]: only a [dict] has the method. *)
Definition get (v : value) (key : string) (default : value) : M S value :=
  match v with
  | JDict kvs => ret (from_option id default (kvs !! key))
  | _ => raise AttributeError
  end.

(** [v[key]] for a [str] key *)
Definition subscript (v : value) (key : string) : M S value :=
  match v with
  | JDict kvs =>
      match kvs !! key with
      | Some x => ret x
      | None => raise KeyError
      end
  | _ => raise TypeError
  end.

(** [v[i]] for an [int] [i >= 0] *)
Definition item (v : value) (i : nat) : M S value :=
  match v with
  | JList xs =>
      match xs !! i with
      | Some x => ret x
      | None => raise IndexError
      end
  | JStr s =>
      match String.get i s with
      | Some c => ret (JStr (String c ""))
      | None => raise IndexError
      end
  | JDict _ => raise KeyError
  | _ => raise TypeError
  end.

(** [v[:n]]; a [dict] refuses a slice with [TypeError] or, from Python
    3.12 on, [KeyError]: the model takes the first. *)
Definition slice_to (v : value) (n : nat) : M S value :=
  match v with
  | JList xs => ret (JList (take n xs))
  | JStr s => ret (JStr (Text.take n s))
  | _ => raise TypeError
  end.

(** [len(v)] *)
Definition len (v : value) : M S nat :=
  match v with
  | JList xs => ret (length xs)
  | JStr s => ret (String.length s)
  | JDict kvs => ret (size kvs)
  | _ => raise TypeError
  end.

(** [iter(v)]: what [for x in v] runs over; the keys of a [dict] come in
    the order of the map, not in insertion order. *)
Definition iterate (v : value) : M S (list value) :=
  match v with
  | JList xs => ret xs
  | JStr s => ret ((λ c, JStr (String c "")) <$> list_ascii_of_string s)
  | JDict kvs => ret ((λ kv, JStr kv.1) <$> map_to_list kvs)
  | _ => raise TypeError
  end.
End ops.

End Json.

(** ** qdrant-examples.py: class QdrantClient *)
Module Qdrant.
Import Py Json.

Definition QDRANT_HOST : string := "localhost".
Definition QDRANT_PORT : Z := 6333.
Definition QDRANT_URL : string :=
  "http://" +:+ QDRANT_HOST +:+ ":" +:+ pretty QDRANT_PORT.

Inductive http_method := GET | PUT | POST.

(** A call of [requests.get/put/post(url, json=body)]. *)
Record request := Request {
  method : http_method;
  target : string;
  body : option value
}.

(** What the client looks at in a response: [status_code] and the
    outcome of [response.json()]. *)
Record response := Response {
  status_code : Z;
  json : result value
}.

(** The service and the network between: a request ends with a response
    or with an exception, or never returns. *)
Definition transport : Type := request → result response.

Inductive event :=
| Sent (r : request)
| Stdout (message : string) (e : exn).

(** The client's view of the process: what it sent and printed. *)
Definition world : Type := list event.

Record QdrantClient := Client { url : string }.

(** [QdrantClient()] *)
Definition default_client : QdrantClient := Client QDRANT_URL.

Section client.
Variable requests : transport.
Variable self : QdrantClient.

Definition send (r : request) : M world response :=
  λ w, (requests r, w ++ [Sent r]).

(** [print(f"{message}{e}")] *)
Definition print (message : string) (e : exn) : M world unit :=
  λ w, (Ok tt, w ++ [Stdout message e]).

(** [response.json()] *)
Definition response_json (r : response) : M world value :=
  λ w, (json r, w).

(** [requests.get(f"{self.url}/health")] *)
Definition health_request : request :=
  Request GET (url self +:+ "/health") None.

Definition health_check : M world bool :=
  try_except
    (response ← send health_request;
     if (status_code response =? 200)%Z then
       data ← response_json response;
       status ← get data "status" JNull;
       ret (eq_str status "ok")
     else ret false)
    is_Exception
    (λ e, print "Health check failed: " e ;; ret false).

Definition collection_config (vector_size : value) : value :=
  JDict {[ "vectors" :=
             JDict {[ "size" := vector_size; "distance" := JStr "Cosine" ]} ]}.

(** [requests.put(f"{self.url}/collections/{collection_name}",
    json=collection_config)] *)
Definition create_request (collection_name : string) (vector_size : value)
    : request :=
  Request PUT (url self +:+ "/collections/" +:+ collection_name)
    (Some (collection_config vector_size)).

(** [def create_collection(self, collection_name, vector_size=1536)]:
    the body, for bound arguments. *)
Definition create_collection (collection_name : string)
    (vector_size : value) : M world bool :=
  try_except
    (response ← send (create_request collection_name vector_size);
     ret ((status_code response =? 200)%Z || (status_code response =? 201)%Z))
    is_Exception
    (λ e, print "Failed to create collection: " e ;; ret false).

(** A call [client.create_collection(collection_name, *args, **kwargs)]
    with a [str] first argument: Python binds the arguments to the
    signature before the body runs, and raises [TypeError] when there
    are too many of them, a keyword it does not know, or two values for
    [vector_size]. *)
Definition call_create_collection (collection_name : string)
    (args : list value) (kwargs : list (string * value)) : M world bool :=
  match args, kwargs with
  | [], [] => create_collection collection_name (JInt 1536)
  | [vector_size], [] => create_collection collection_name vector_size
  | [], [(name, vector_size)] =>
      if String.eqb name "vector_size"
      then create_collection collection_name vector_size
      else raise TypeError
  | _, _ => raise TypeError
  end.

(** [[col["name"] for col in cols]] *)
Fixpoint names (cols : list value) : M world (list value) :=
  match cols with
  | [] => ret []
  | col :: cols' =>
      name ← subscript col "name";
      rest ← names cols';
      ret (name :: rest)
  end.

(** [requests.get(f"{self.url}/collections")] *)
Definition list_request : request :=
  Request GET (url self +:+ "/collections") None.

(** [[col["name"] for col in
    data.get("result", {}).get("collections", [])]] *)
Definition collection_names (data : value) : M world (list value) :=
  result ← get data "result" (JDict ∅);
  collections ← get result "collections" (JList []);
  cols ← iterate collections;
  names cols.

Definition list_collections : M world (list value) :=
  try_except
    (response ← send list_request;
     if (status_code response =? 200)%Z then
       data ← response_json response;
       collection_names data
     else ret [])
    is_Exception
    (λ e, print "Failed to list collections: " e ;; ret []).

(** [requests.put(f"{self.url}/collections/{collection_name}/points",
    json={"points": points})] *)
Definition upsert_request (collection_name : string) (points : value)
    : request :=
  Request PUT (url self +:+ "/collections/" +:+ collection_name +:+ "/points")
    (Some (JDict {[ "points" := points ]})).

Definition upsert_points (collection_name : string) (points : value)
    : M world bool :=
  try_except
    (response ← send (upsert_request collection_name points);
     ret (status_code response =? 200)%Z)
    is_Exception
    (λ e, print "Failed to upsert points: " e ;; ret false).

(** [requests.post(f"{self.url}/collections/{collection_name}/points/search",
    json=search_payload)] *)
Definition search_request (collection_name : string)
    (query_vector limit score_threshold : value) : request :=
  Request POST
    (url self +:+ "/collections/" +:+ collection_name +:+ "/points/search")
    (Some (JDict {[ "vector" := query_vector;
                    "limit" := limit;
                    "score_threshold" := score_threshold;
                    "with_payload" := JBool true;
                    "with_vector" := JBool false ]})).

(** [limit] and [score_threshold] default to [5] and [0.5]. *)
Definition search_points (collection_name : string)
    (query_vector limit score_threshold : value) : M world value :=
  try_except
    (response ← send (search_request collection_name query_vector limit
                        score_threshold);
     if (status_code response =? 200)%Z then
       data ← response_json response;
       get data "result" (JList [])
     else ret (JList []))
    is_Exception
    (λ e, print "Search failed: " e ;; ret (JList [])).

End client.

(** *** Vocabulary of the statements *)

(** The transport raises only exceptions that derive from [Exception], as
    those of [requests] and of the JSON decoder do. *)
Definition raises_Exceptions (requests : transport) : Prop :=
  (∀ r e, requests r = Raise e → is_Exception e = true) ∧
  (∀ r resp e, requests r = Ok resp → json resp = Raise e →
               is_Exception e = true).

(** Computations that only inspect values: they leave the world alone and
    end with a value or with an exception deriving from [Exception]. *)
Definition inspects {A} (m : M world A) : Prop :=
  ∀ w, (∃ a, m w = (Ok a, w)) ∨
       (∃ e, m w = (Raise e, w) ∧ is_Exception e = true).

(** The request did not get through: the transport raised. *)
Definition transport_failed (requests : transport) (r : request) : Prop :=
  ∃ e, requests r = Raise e.

(** The response to the request arrived and could not be decoded. *)
Definition parse_failed (requests : transport) (r : request) : Prop :=
  ∃ resp e, requests r = Ok resp ∧ json resp = Raise e.

(** *** Sample inputs *)

(** A service that cannot be reached, one that answers every request
    with the given status and body, and one whose connection is
    interrupted from the keyboard. *)
Definition refused : transport := λ _, Raise ConnectionError.
Definition answering (status : Z) (body : result value) : transport :=
  λ _, Ok (Response status body).
Definition interrupted : transport := λ _, Raise KeyboardInterrupt.

End Qdrant.

(** ** test-mcp.py *)
Module McpProbe.
Import Text Py Json.

(** After the lines it still holds, the merged output stream of the child
    is either at end of file or open and silent. *)
Inductive stream_end := Closed | Silent.

Inductive event :=
| Spawn (cmd : list string)
| Sleep (seconds : Z)
| Sent (request : value)
| Terminate
| Wait (timeout : Z)
| Kill
| Stdout (template : string) (args : list value)
| StdoutError (template : string) (e : exn)
| Traceback.

(** The child process as the probe meets it.  [pending] are the lines
    [readline] will return, in order, whatever the probe writes.  A write
    to its stdin is recorded as [Sent request], standing for
    [json.dumps(request) + '\n']; a [print] is recorded with the values
    its f-string interpolates. *)
Record world := World {
  spawn_ok : bool;
  spawned : bool;
  stdin_ok : bool;
  pending : list string;
  at_end : stream_end;
  exits_in_time : bool;
  trace : list event
}.

Definition record (e : event) (w : world) : world :=
  World (spawn_ok w) (spawned w) (stdin_ok w) (pending w) (at_end w)
    (exits_in_time w) (trace w ++ [e]).

Definition emit (e : event) : M world unit := λ w, (Ok tt, record e w).

Definition print (template : string) (args : list value) : M world unit :=
  emit (Stdout template args).

Definition print_error (template : string) (e : exn) : M world unit :=
  emit (StdoutError template e).

(** [process.stdin.write(request_json); process.stdin.flush()] *)
Definition stdin_write (request : value) : M world unit :=
  λ w, if stdin_ok w then (Ok tt, record (Sent request) w)
       else (Raise BrokenPipeError, w).

Definition set_pending (lines : list string) (w : world) : world :=
  World (spawn_ok w) (spawned w) (stdin_ok w) lines (at_end w)
    (exits_in_time w) (trace w).

(** [process.stdout.readline()] *)
Definition readline : M world string :=
  λ w, match pending w with
       | line :: rest => (Ok line, set_pending rest w)
       | [] =>
           match at_end w with
           | Closed => (Ok "", w)
           | Silent => (Hang, w)
           end
       end.

Definition cmd : list string :=
  ["docker"; "exec"; "-i"; "prompt-alchemy-mcp";
   "prompt-alchemy"; "--config"; "/app/config.yaml"; "serve"].

(** [process = subprocess.Popen(cmd, ...)] *)
Definition popen : M world unit :=
  λ w, if spawn_ok w
       then (Ok tt,
             World (spawn_ok w) true (stdin_ok w) (pending w) (at_end w)
               (exits_in_time w) (trace w ++ [Spawn cmd]))
       else (Raise FileNotFoundError, w).

(** [process.terminate()], [process.wait(timeout=5)], [process.kill()]:
    [process] is unbound when [Popen] raised. *)
Definition terminate : M world unit :=
  λ w, if spawned w then (Ok tt, record Terminate w)
       else (Raise UnboundLocalError, w).

Definition wait (timeout : Z) : M world unit :=
  λ w, if spawned w
       then (if exits_in_time w then Ok tt else Raise TimeoutExpired,
             record (Wait timeout) w)
       else (Raise UnboundLocalError, w).

Definition kill : M world unit :=
  λ w, if spawned w then (Ok tt, record Kill w)
       else (Raise UnboundLocalError, w).

Definition nl : string := String (ascii_of_nat 10) EmptyString.

Section probe.
(** [json.loads], [None] standing for [json.JSONDecodeError]. *)
Variable json_loads : string → option value.

(** One round of the [while True] loop of [send_mcp_request]. *)
Definition read_round : M world (option value) :=
  line ← readline;
  if String.eqb line "" then
    print "No response received" [] ;; ret (Some JNull)
  else
    let line := strip line in
    if String.eqb line "" then ret None
    else if startswith line "time=" then ret None
    else match json_loads line with
         | Some response =>
             print "Received: {}" [response] ;; ret (Some response)
         | None =>
             print "Skipping non-JSON line: {}" [JStr line] ;; ret None
         end.

(** The [while True] loop: every round but the last takes a line off
    the stream, so one round more than there are lines is fuel enough. *)
Definition read_response : M world value :=
  λ w, while_true (S (length (pending w))) read_round w.

(** Python's [None] is [JNull]. *)
Definition send_mcp_request (request : value) : M world value :=
  print "Sending: {}" [request] ;;
  try_except
    (stdin_write request ;; read_response)
    is_Exception
    (λ e, print_error "Error sending request: {}" e ;; ret JNull).

Definition init_request : value :=
  JDict {[ "jsonrpc" := JStr "2.0";
           "id" := JInt 1;
           "method" := JStr "initialize";
           "params" :=
             JDict {[ "protocolVersion" := JStr "2024-11-05";
                      "capabilities" := JDict ∅ ]} ]}.

Definition tools_request : value :=
  JDict {[ "jsonrpc" := JStr "2.0";
           "id" := JInt 2;
           "method" := JStr "tools/list";
           "params" := JDict ∅ ]}.

Definition tool_request (tool_name : value) : value :=
  JDict {[ "jsonrpc" := JStr "2.0";
           "id" := JInt 3;
           "method" := JStr "tools/call";
           "params" :=
             JDict {[ "name" := tool_name; "arguments" := JDict ∅ ]} ]}.

(** [response and response.get('result')], as a condition *)
Definition has_result (response : value) : M world bool :=
  if truthy response then
    result ← get response "result" JNull;
    ret (truthy result)
  else ret false.

(** Test 2, after the response arrived, and test 3. *)
Definition list_and_call_tools (response : value) : M world unit :=
  listed ← has_result response;
  (if (listed : bool) then
     result ← subscript response "result";
     tools ← get result "tools" (JList []);
     n ← len tools;
     print "✅ Found {} tools" [JInt (Z.of_nat n)] ;;
     first ← slice_to tools 5;
     shown ← iterate first;
     for_each shown tt
       (λ tool _,
          name ← get tool "name" (JStr "Unknown");
          description ← get tool "description" (JStr "No description");
          short ← slice_to description 80;
          print "  - {}: {}..." [name; short])
   else print "❌ List tools failed" []) ;;
  listed ← has_result response;
  if (listed : bool) then
    result ← subscript response "result";
    tools ← get result "tools" (JList []);
    if truthy tools then
      first_tool ← item tools 0;
      tool_name ← get first_tool "name" JNull;
      print (nl +:+ "=== Test 3: Call Tool '{}' ===") [tool_name] ;;
      response ← send_mcp_request (tool_request tool_name);
      called ← has_result response;
      if (called : bool) then
        print "✅ Tool call '{}' successful" [tool_name] ;;
        result ← get response "result" (JDict ∅);
        content ← get result "content" (JList []);
        if truthy content then
          n ← len content;
          if (0 <? n)%nat then
            first ← item content 0;
            text ← get first "text" (JStr "");
            preview ← slice_to text 200;
            print "  Result preview: {}..." [preview]
          else ret tt
        else ret tt
      else print "❌ Tool call '{}' failed" [tool_name]
    else ret tt
  else ret tt.

(** The [try] block of [test_mcp_server]; its [return] after a failed
    initialize is the end of the [else] branch. *)
Definition exchange : M world unit :=
  popen ;;
  emit (Sleep 2) ;;
  print (nl +:+ "=== Test 1: Initialize ===") [] ;;
  response ← send_mcp_request init_request;
  initialized ← has_result response;
  if (initialized : bool) then
    print "✅ Initialize successful" [] ;;
    result ← subscript response "result";
    server_info ← get result "serverInfo" (JDict ∅);
    name ← get server_info "name" (JStr "Unknown");
    version ← get server_info "version" (JStr "Unknown");
    print "  Server: {} v{}" [name; version] ;;
    print (nl +:+ "=== Test 2: List Tools ===") [] ;;
    response ← send_mcp_request tools_request;
    list_and_call_tools response ;;
    print (nl +:+ "=== MCP Server Test Complete ===") []
  else
    print "❌ Initialize failed" [].

(** The [finally] block. *)
Definition teardown : M world unit :=
  try_except (terminate ;; wait 5) (λ _, true)
    (λ _, try_except kill (λ _, true) (λ _, ret tt)).

Definition test_mcp_server : M world unit :=
  print "Connecting to running MCP server..." [] ;;
  print "Command: {}" [JStr (String.concat " " cmd)] ;;
  try_finally
    (try_except exchange is_Exception
       (λ e, print_error "Error running test: {}" e ;; emit Traceback))
    teardown.

(** *** Vocabulary of the statements *)


(** What one round of the loop makes of the line it read: the end of
    the stream, a line to pass over (printed or not), or the response. *)
Inductive verdict :=
| EndOfFile
| Skip
| SkipPrinted (line : string)
| Accept (response : value).

Definition judge (line : string) : verdict :=
  if String.eqb line "" then EndOfFile
  else
    let l := strip line in
    if String.eqb l "" then Skip
    else if startswith l "time=" then Skip
    else match json_loads l with
         | Some response => Accept response
         | None => SkipPrinted l
         end.

(** The first line the loop stops at, with what it returns there and the
    lines left after it. *)
Fixpoint scan (lines : list string) : option (value * list string) :=
  match lines with
  | [] => None
  | line :: rest =>
      match judge line with
      | EndOfFile => Some (JNull, rest)
      | Accept response => Some (response, rest)
      | Skip | SkipPrinted _ => scan rest
      end
  end.

End probe.

(** The requests written to the child's stdin, in order. *)
Definition sent_requests (tr : list event) : list value :=
  omap (λ e, match e with Sent request => Some request | _ => None end) tr.


(** [w'] differs from [w] in the lines read and in what was printed at
    most: the child is as it was and nothing more was written to it. *)
Definition same_child (w w' : world) : Prop :=
  spawn_ok w' = spawn_ok w ∧ spawned w' = spawned w ∧
  stdin_ok w' = stdin_ok w ∧ at_end w' = at_end w ∧
  exits_in_time w' = exits_in_time w ∧
  sent_requests (trace w') = sent_requests (trace w).


(** *** Sample inputs *)

Definition quote : string := String (ascii_of_nat 34) EmptyString.

(** The text of a JSON-RPC error response: an object with the fields
    [id] and [error]. *)
Definition error_text : string :=
  "{" +:+ quote +:+ "id" +:+ quote +:+ ":1," +:+
  quote +:+ "error" +:+ quote +:+ ":" +:+ quote +:+ "unsupported" +:+ quote
  +:+ "}".

Definition error_response : value :=
  JDict {[ "id" := JInt 1; "error" := JStr "unsupported" ]}.

(** A decoder that knows two texts, all the samples need of [json.loads]. *)
Definition decode_sample (s : string) : option value :=
  if String.eqb s error_text then Some error_response
  else if String.eqb s "{}" then Some (JDict ∅)
  else None.

(** A child that logs, answers the first request with an error, and
    does not exit when asked to. *)
Definition refusing_child : world :=
  World true false true
    ["time=2024-11-05T10:00:00Z level=info msg=starting" +:+ nl;
     nl;
     "Server ready" +:+ nl;
     "  " +:+ error_text +:+ nl;
     "{}" +:+ nl]
    Closed false [].


End McpProbe.

(** ** Further sample inputs and vocabulary *)
Module Samples.
Import Py Extractor.

(** The world of [notes_world] with a directory where the second diagram
    of [docs/notes.md] would go. *)
Definition blocked_world : world :=
  World {[ "docs/notes.md" := File notes;
           "out/notes-diagram-2.mmd" := Dir ]} [].

(** A collection listing with two entries, and one whose second entry is
    a bare string. *)
Definition listing : Json.value :=
  Json.JDict {[ "result" := Json.JDict {[ "collections" :=
    Json.JList [Json.JDict {[ "name" := Json.JStr "prompts" ]};
                Json.JDict {[ "name" := Json.JStr "embeddings" ]}] ]} ]}.

Definition broken_listing : Json.value :=
  Json.JDict {[ "result" := Json.JDict {[ "collections" :=
    Json.JList [Json.JDict {[ "name" := Json.JStr "prompts" ]};
                Json.JStr "embeddings"] ]} ]}.

(** An entry of a collection listing is an object with the given
    ["name"]. *)
Definition named (col name : Json.value) : Prop :=
  ∃ kvs, col = Json.JDict kvs ∧ kvs !! "name" = Some name.

End Samples.

(** ** Vocabulary and sample children for the runs of the probe *)
Module ProbeTerms.
Import Text Py Json McpProbe.

(** The life cycle of the child in a trace: what the probe did to the
    process, leaving out what it printed and what it wrote to the child. *)
Definition life_cycle (tr : list event) : list event :=
  omap (λ e, match e with
             | Spawn _ | Sleep _ | Terminate | Wait _ | Kill => Some e
             | Sent _ | Stdout _ _ | StdoutError _ _ | Traceback => None
             end) tr.

(** [w'] is [w] after the events [evs]; the child is as it was, but for
    the lines read from it. *)
Definition after (w : world) (evs : list event) (w' : world) : Prop :=
  trace w' = trace w ++ evs ∧
  spawn_ok w' = spawn_ok w ∧ spawned w' = spawned w ∧
  stdin_ok w' = stdin_ok w ∧ at_end w' = at_end w ∧
  exits_in_time w' = exits_in_time w.

(** A computation that prints, reads and writes requests only.  It leaves
    the life cycle of the child alone, the requests it writes are among
    [P] (none when the child's stdin is broken), it raises nothing that
    [except Exception] lets through, and it blocks only on a stream that
    stays open after a request was written. *)
Definition orderly {A} (P : list value → Prop) (m : M world A) : Prop :=
  ∀ w, ∃ evs,
    after w evs (m w).2 ∧
    life_cycle evs = [] ∧
    (∃ l, P l ∧ sent_requests evs = if stdin_ok w then l else []) ∧
    match (m w).1 with
    | Ok _ => True
    | Raise e => is_Exception e = true
    | Hang => stdin_ok w = true ∧ at_end w = Silent
    end.

(** What the [finally] block does to the child: nothing when no process
    was started, and a kill only when the child does not exit in time. *)
Definition farewell (w : world) : list event :=
  if spawned w
  then Terminate :: Wait 5 :: (if exits_in_time w then [] else [Kill])
  else [].

(** The world after [Popen] and the sleep, at the heading of test 1. *)
Definition started (w : world) : world :=
  record (Stdout (nl +:+ "=== Test 1: Initialize ===") [])
    (record (Sleep 2)
       (World (spawn_ok w) true (stdin_ok w) (pending w) (at_end w)
          (exits_in_time w) (trace w ++ [Spawn cmd]))).

(** The world in which the [try] block starts: two lines are printed. *)
Definition announced (w : world) : world :=
  record (Stdout "Command: {}" [JStr (String.concat " " cmd)])
    (record (Stdout "Connecting to running MCP server..." []) w).

(** The request sequences of a run of the probe. *)
Definition probe_requests (l : list value) : Prop :=
  l = [init_request] ∨
  l = [init_request; tools_request] ∨
  ∃ tool_name, l = [init_request; tools_request; tool_request tool_name].



(** A response to [initialize] the probe accepts and can print: its
    [result] is a non-empty object whose [serverInfo], when present, is an
    object. *)
Definition initialized (response : value) : Prop :=
  ∃ kvs result,
    response = JDict kvs ∧ kvs !! "result" = Some (JDict result) ∧
    result ≠ ∅ ∧
    match result !! "serverInfo" with
    | None | Some (JDict _) => True
    | Some _ => False
    end.




(** *** Sample children *)

Definition q (s : string) : string := quote +:+ s +:+ quote.

(** [{"result":null}] *)
Definition null_result_text : string := "{" +:+ q "result" +:+ ":null}".
Definition null_result : value := JDict {[ "result" := JNull ]}.

(** [{"result":{"serverInfo":{"name":"prompt-alchemy","version":"1.0"}}}] *)
Definition welcome_text : string :=
  "{" +:+ q "result" +:+ ":{" +:+ q "serverInfo" +:+ ":{" +:+
  q "name" +:+ ":" +:+ q "prompt-alchemy" +:+ "," +:+
  q "version" +:+ ":" +:+ q "1.0" +:+ "}}}".
Definition welcome : value :=
  JDict {[ "result" := JDict {[ "serverInfo" :=
    JDict {[ "name" := JStr "prompt-alchemy";
             "version" := JStr "1.0" ]} ]} ]}.

(** [{"result":{"tools":[{"name":"get_config","description":"Show"}]}}] *)
Definition get_config : value :=
  JDict {[ "name" := JStr "get_config"; "description" := JStr "Show" ]}.
Definition tools_text : string :=
  "{" +:+ q "result" +:+ ":{" +:+ q "tools" +:+ ":[{" +:+
  q "name" +:+ ":" +:+ q "get_config" +:+ "," +:+
  q "description" +:+ ":" +:+ q "Show" +:+ "}]}}".
Definition tools_response : value :=
  JDict {[ "result" := JDict {[ "tools" := JList [get_config] ]} ]}.

(** [{"result":{"tools":[{"name":"get_config","description":null}]}}] *)
Definition undescribed : value :=
  JDict {[ "name" := JStr "get_config"; "description" := JNull ]}.
Definition undescribed_text : string :=
  "{" +:+ q "result" +:+ ":{" +:+ q "tools" +:+ ":[{" +:+
  q "name" +:+ ":" +:+ q "get_config" +:+ "," +:+
  q "description" +:+ ":null}]}}".
Definition undescribed_response : value :=
  JDict {[ "result" := JDict {[ "tools" := JList [undescribed] ]} ]}.

(** A decoder that knows the texts above and those of [decode_sample],
    and the array [[1]]. *)
Definition decode (s : string) : option value :=
  if String.eqb s null_result_text then Some null_result
  else if String.eqb s welcome_text then Some welcome
  else if String.eqb s tools_text then Some tools_response
  else if String.eqb s undescribed_text then Some undescribed_response
  else if String.eqb s "[1]" then Some (JList [JInt 1])
  else decode_sample s.

(** No [docker] on the path: the child cannot be started. *)
Definition no_docker : world := World false false true [] Closed true [].

(** A child that has closed its stdin. *)
Definition deaf_child : world :=
  World true false false [welcome_text +:+ nl] Closed true [].







End ProbeTerms.

(** ** qdrant-examples.py: main *)
Module QdrantDemo.
Import Py Json.

(** What the demo does: what the client sends and prints on its behalf,
    and the lines [main] prints itself, recorded with the values its
    f-strings interpolate. *)
Inductive event :=
| Client (e : Qdrant.event)
| Say (template : string) (args : list value).

Definition world : Type := list event.

Definition say (template : string) (args : list value) : M world unit :=
  λ w, (Ok tt, w ++ [Say template args]).

(** A call of a method of the client: the client only adds to what was
    sent and printed, and its additions go to the trace of the demo. *)
Definition call {A} (m : M Qdrant.world A) : M world A :=
  λ w, let '(r, evs) := m [] in (r, w ++ (Client <$> evs)).

Definition nl : string := String (ascii_of_nat 10) EmptyString.

(** [s * n] *)
Fixpoint times (s : string) (n : nat) : string :=
  match n with
  | O => ""
  | S n' => s +:+ times s n'
  end.

(** One of the [sample_points]; [x] is the component of the mock
    embedding [[x] * 1536]. *)
Definition sample_point (id : Z) (x : value) (text phase : string)
    (score : value) : value :=
  JDict {[ "id" := JInt id;
           "vector" := JList (replicate 1536 x);
           "payload" :=
             JDict {[ "text" := JStr text;
                      "type" := JStr "prompt";
                      "phase" := JStr phase;
                      "score" := score ]} ]}.

Definition sample_points : value :=
  JList
    [sample_point 1 (JFloat 1 (-1))
       "Generate a REST API for user authentication" "coagulatio"
       (JFloat 85 (-1));
     sample_point 2 (JFloat 2 (-1))
       "Create a Python function for data validation" "solutio"
       (JFloat 78 (-1));
     sample_point 3 (JFloat 3 (-1))
       "Write unit tests for authentication system" "prima-materia"
       (JFloat 91 (-1))].

Definition collection_name : string := "prompt_embeddings".

(** [[0.15] * 1536] *)
Definition query_vector : value := JList (replicate 1536 (JFloat 15 (-2))).

Section demo.
Variable requests : Qdrant.transport.

(** [format(v, '.3f')], the text or the exception. *)
Variable format_3f : value → result string.

Definition format_score (v : value) : M world string :=
  λ w, (format_3f v, w).

(** The body of the loop over the search results. *)
Definition show_result (i : nat) (result : value) : M world unit :=
  score ← subscript result "score";
  shown ← format_score score;
  say "  {}. Score: {}" [JInt (Z.of_nat i); JStr shown] ;;
  payload ← subscript result "payload";
  text ← subscript payload "text";
  say "     Text: {}" [text] ;;
  payload ← subscript result "payload";
  phase ← subscript payload "phase";
  say "     Phase: {}" [phase] ;;
  payload ← subscript result "payload";
  quality ← subscript payload "score";
  say "     Quality: {}" [quality] ;;
  say "" [].

Definition main : M world unit :=
  say "🔍 Qdrant Vector Database Examples" [] ;;
  say (times "=" 50) [] ;;
  let client := Qdrant.default_client in
  say "1. Health Check..." [] ;;
  healthy ← call (Qdrant.health_check requests client);
  if (healthy : bool) then
    say "✅ Qdrant is healthy!" [] ;;
    say (nl +:+ "2. Listing Collections...") [] ;;
    collections ← call (Qdrant.list_collections requests client);
    say "📦 Found {} collections: {}"
      [JInt (Z.of_nat (length collections)); JList collections] ;;
    say (nl +:+ "3. Creating Collection: {}") [JStr collection_name] ;;
    created ← call (Qdrant.call_create_collection requests client
                      collection_name [] [("vector_size", JInt 1536)]);
    (if (created : bool)
     then say "✅ Collection created successfully!" []
     else say "⚠️  Collection might already exist or creation failed" []) ;;
    say (nl +:+ "4. Adding Sample Vectors...") [] ;;
    added ← call (Qdrant.upsert_points requests client collection_name
                    sample_points);
    (if (added : bool)
     then say "✅ Sample vectors added successfully!" []
     else say "❌ Failed to add sample vectors" []) ;;
    say (nl +:+ "5. Searching for Similar Vectors...") [] ;;
    results ← call (Qdrant.search_points requests client collection_name
                      query_vector (JInt 3) (JFloat 5 (-1)));
    n ← len results;
    say "🔍 Found {} similar vectors:" [JInt (Z.of_nat n)] ;;
    items ← iterate results;
    for_each (enumerate 1 items) tt
      (λ numbered _, show_result numbered.1 numbered.2) ;;
    say "🎉 Qdrant examples completed successfully!" [] ;;
    say (nl +:+ "💡 Next steps:") [] ;;
    say "  - Integrate with OpenAI embeddings API" [] ;;
    say "  - Connect to prompt-alchemy storage system" [] ;;
    say "  - Implement semantic search for prompts" []
  else
    say "❌ Qdrant is not responding" [].

End demo.

(** *** Vocabulary of the statements *)

(** The requests sent in a trace, in order. *)
Definition requests_of (tr : list event) : list Qdrant.request :=
  omap (λ e, match e with Client (Qdrant.Sent r) => Some r | _ => None end) tr.

(** The lines [main] printed itself, in order. *)
Definition said (tr : list event) : list string :=
  omap (λ e, match e with Say template _ => Some template | _ => None end) tr.

(** Computations of the demo that send nothing: all they add to the
    trace is printed. *)
Definition talks {A} (m : M world A) : Prop :=
  ∀ w, ∃ evs, (m w).2 = w ++ evs ∧ requests_of evs = [].

(** The five requests of a complete run. *)
Definition demo_requests : list Qdrant.request :=
  let client := Qdrant.default_client in
  [Qdrant.health_request client;
   Qdrant.list_request client;
   Qdrant.create_request client collection_name (JInt 1536);
   Qdrant.upsert_request client collection_name sample_points;
   Qdrant.search_request client collection_name query_vector (JInt 3)
     (JFloat 5 (-1))].

(** The service answers: every request comes back with a response or an
    exception deriving from [Exception], and so does the decoding of
    every response. *)
Definition answers (requests : Qdrant.transport) : Prop :=
  Qdrant.raises_Exceptions requests ∧
  (∀ r, requests r ≠ Hang) ∧
  (∀ r resp, requests r = Ok resp → Qdrant.json resp ≠ Hang).

(** *** Sample inputs *)

(** The body of a healthy answer to the health check. *)
Definition healthy_body : value := JDict {[ "status" := JStr "ok" ]}.

(** A search hit without a score. *)
Definition unscored_hit : value :=
  JDict {[ "id" := JInt 1;
           "payload" := JDict {[ "text" := JStr "Generate a REST API" ]} ]}.

(** A service that is healthy, answers every search with one hit that has
    no score, and everything else with an empty object. *)
Definition unscored_service : Qdrant.transport :=
  λ r,
    if String.eqb (Qdrant.target r)
         (Qdrant.url Qdrant.default_client +:+ "/health")
    then Ok (Qdrant.Response 200 (Ok healthy_body))
    else match Qdrant.method r with
         | Qdrant.POST =>
             Ok (Qdrant.Response 200
                   (Ok (JDict {[ "result" := JList [unscored_hit] ]})))
         | _ => Ok (Qdrant.Response 200 (Ok (JDict ∅)))
         end.

(** A service of which only the health check works. *)
Definition health_only_service : Qdrant.transport :=
  λ r,
    if String.eqb (Qdrant.target r)
         (Qdrant.url Qdrant.default_client +:+ "/health")
    then Ok (Qdrant.Response 200 (Ok healthy_body))
    else Raise ConnectionError.

(** [format(v, '.3f')] on integers and booleans, and the [TypeError] of
    [None], lists and objects; the samples ask for nothing else. *)
Definition format_whole (v : value) : result string :=
  match v with
  | JInt n => Ok (pretty n +:+ ".000")
  | JBool b => Ok (if b then "1.000" else "0.000")
  | _ => Raise TypeError
  end.

End QdrantDemo.

(** * Facts about the string primitives *)
Module TextFacts.
Import Text.

Lemma str_app_cons a s t : String a s +:+ t = String a (s +:+ t).
Proof. reflexivity. Qed.

Lemma str_app_nil_l s : "" +:+ s = s.
Proof. reflexivity. Qed.

Lemma str_app_nil_r s : s +:+ "" = s.
Proof. induction s as [|a s IH]; [done|]. by rewrite str_app_cons, IH. Qed.

Lemma str_app_assoc s t u : (s +:+ t) +:+ u = s +:+ (t +:+ u).
Proof. induction s as [|a s IH]; [done|]. by rewrite !str_app_cons, IH. Qed.

Lemma str_length_app s t :
  String.length (s +:+ t) = String.length s + String.length t.
Proof. induction s as [|a s IH]; [done|]. rewrite str_app_cons; simpl; lia. Qed.

Lemma str_app_inv_head s t u : s +:+ t = s +:+ u → t = u.
Proof. apply (inj (String.app s)). Qed.

(** Two splits of one string at the same position agree. *)
Lemma str_app_eq_length s1 t1 s2 t2 :
  s1 +:+ t1 = s2 +:+ t2 → String.length s1 = String.length s2 →
  s1 = s2 ∧ t1 = t2.
Proof.
  revert s2. induction s1 as [|a s1 IH]; intros [|b s2] E L; try done.
  rewrite !str_app_cons in E. injection E as -> E. simpl in L.
  destruct (IH s2 E) as [-> ->]; [lia|done].
Qed.

Lemma str_app_inv_tail s1 s2 t : s1 +:+ t = s2 +:+ t → s1 = s2.
Proof.
  intros E. apply (str_app_eq_length _ _ _ _ E).
  apply (f_equal String.length) in E. rewrite !str_length_app in E. lia.
Qed.

Lemma strip_prefix_Some p s r : strip_prefix p s = Some r ↔ s = p +:+ r.
Proof.
  revert s. induction p as [|a p IH]; intros s; simpl.
  - rewrite str_app_nil_l. naive_solver.
  - destruct s as [|b s]; [by rewrite str_app_cons|].
    rewrite str_app_cons. destruct (Ascii.eqb_spec a b) as [->|Hne].
    + rewrite IH. naive_solver.
    + naive_solver.
Qed.

Lemma strip_prefix_app p r : strip_prefix p (p +:+ r) = Some r.
Proof. by apply strip_prefix_Some. Qed.

Lemma strip_prefix_None p s : strip_prefix p s = None ↔ ∀ r, s ≠ p +:+ r.
Proof.
  split.
  - intros H r ->. by rewrite strip_prefix_app in H.
  - intros H. destruct (strip_prefix p s) as [r|] eqn:E; [|done].
    apply strip_prefix_Some in E. by destruct (H r).
Qed.

Lemma contains_app c s t : contains c (s +:+ t) = contains c s || contains c t.
Proof.
  induction s as [|a s IH]; [done|].
  rewrite str_app_cons; simpl. rewrite IH. by rewrite orb_assoc.
Qed.

Lemma take_drop n s : take n s +:+ drop n s = s.
Proof.
  revert s. induction n as [|n IH]; intros [|a s]; try done.
  simpl. by rewrite str_app_cons, IH.
Qed.

Lemma drop_app_length s t : drop (String.length s) (s +:+ t) = t.
Proof. induction s as [|a s IH]; [by destruct t|]. by rewrite str_app_cons. Qed.

Lemma rfind_bounds c s : (-1 ≤ rfind c s < Z.of_nat (String.length s))%Z.
Proof.
  induction s as [|a s IH]; simpl; [lia|].
  destruct (Z.leb_spec 0 (rfind c s)); [lia|].
  destruct (Ascii.eqb a c); lia.
Qed.

Lemma rfind_absent c s : contains c s = false → rfind c s = (-1)%Z.
Proof.
  induction s as [|a s IH]; simpl; [done|].
  intros [Ha Hs]%orb_false_elim. by rewrite IH, Ha.
Qed.

(** The character at the index [rfind] returns is the one looked for, and
    it does not occur after it. *)
Lemma rfind_found c s :
  (0 ≤ rfind c s)%Z →
  ∃ t, drop (Z.to_nat (rfind c s)) s = String c t ∧ contains c t = false.
Proof.
  induction s as [|a s IH]; simpl; [lia|].
  destruct (Z.leb_spec 0 (rfind c s)) as [Hr|Hr].
  - intros _. destruct (IH Hr) as (t & Ht & Hc). exists t. split; [|done].
    replace (Z.to_nat (rfind c s + 1)) with (S (Z.to_nat (rfind c s))) by lia.
    done.
  - destruct (Ascii.eqb_spec a c) as [->|]; [|lia].
    intros _. exists s. split; [done|].
    destruct (contains c s) eqn:E; [|done].
    exfalso. clear IH. induction s as [|b s IH]; [done|].
    simpl in *. destruct (Z.leb_spec 0 (rfind c s)); [lia|].
    destruct (Ascii.eqb_spec b c); [lia|]. simpl in E. apply IH; [lia|done].
Qed.

End TextFacts.

(** * Facts about the pattern and [findall] *)
Module RegexFacts.
Import Text TextFacts Regex Extractor.

Lemma match_lazy_unfold items s :
  match_items (LazyGroup :: items) s =
  match match_items items s with
  | Some (caps, rest) => Some ("" :: caps, rest)
  | None =>
      match s with
      | "" => None
      | String ch s' =>
          match match_items (LazyGroup :: items) s' with
          | Some (g :: caps, rest) => Some (String ch g :: caps, rest)
          | _ => None
          end
      end
  end.
Proof. by destruct s. Qed.

Lemma match_lit_unfold p s :
  match_items [Lit p] s =
  match strip_prefix p s with Some rest => Some ([], rest) | None => None end.
Proof. done. Qed.

(** A lazy group before a closing literal [c] captures the shortest text
    that [c] follows. *)
Lemma match_lazy_lit c s :
  match match_items [LazyGroup; Lit c] s with
  | Some (caps, rest) =>
      ∃ body, caps = [body] ∧ s = body +:+ c +:+ rest ∧
        ∀ body' rest', s = body' +:+ c +:+ rest' →
          (String.length body ≤ String.length body')%nat
  | None => ∀ body rest, s ≠ body +:+ c +:+ rest
  end.
Proof.
  induction s as [|ch s IH]; rewrite match_lazy_unfold, match_lit_unfold.
  - destruct (strip_prefix c "") as [rest|] eqn:E.
    + apply strip_prefix_Some in E. exists "". repeat split; [done|].
      intros; simpl; lia.
    + intros [|??] rest H; [|done].
      rewrite str_app_nil_l in H. by eapply strip_prefix_None in E.
  - destruct (strip_prefix c (String ch s)) as [rest|] eqn:E.
    + apply strip_prefix_Some in E. exists "". repeat split; [done|].
      intros; simpl; lia.
    + destruct (match_items [LazyGroup; Lit c] s) as [[caps rest]|].
      * destruct IH as (body & -> & -> & Hmin).
        exists (String ch body). repeat split.
        intros [|ch' body'] rest' H.
        { rewrite str_app_nil_l in H. by eapply strip_prefix_None in E. }
        rewrite str_app_cons in H. injection H as _ H.
        apply Hmin in H. simpl; lia.
      * intros [|ch' body'] rest' H.
        { rewrite str_app_nil_l in H. by eapply strip_prefix_None in E. }
        rewrite str_app_cons in H. injection H as _ H. by eapply IH.
Qed.

Lemma match_mermaid_unfold s :
  match_items mermaid_pattern s =
  match strip_prefix fence_open s with
  | Some r => match_items [LazyGroup; Lit fence_close] r
  | None => None
  end.
Proof. done. Qed.

(** A match of the pattern at the head of [s] is a block that opens
    there and closes as early as possible. *)
Lemma match_mermaid s :
  match match_items mermaid_pattern s with
  | Some (caps, rest) =>
      ∃ body, caps = [body] ∧ block_at s "" body rest ∧
        ∀ body' rest', block_at s "" body' rest' →
          (String.length body ≤ String.length body')%nat
  | None => ∀ body rest, ¬ block_at s "" body rest
  end.
Proof.
  rewrite match_mermaid_unfold. unfold block_at.
  destruct (strip_prefix fence_open s) as [r|] eqn:E.
  - apply strip_prefix_Some in E as ->.
    pose proof (match_lazy_lit fence_close r) as H.
    destruct (match_items [LazyGroup; Lit fence_close] r) as [[caps rest]|].
    + destruct H as (body & -> & -> & Hmin). exists body.
      repeat split. intros body' rest' H.
      rewrite str_app_nil_l in H. apply str_app_inv_head in H. eauto.
    + intros body rest H'. rewrite str_app_nil_l in H'.
      apply str_app_inv_head in H'. by eapply H.
  - intros body rest ->. rewrite str_app_nil_l in E.
    by eapply strip_prefix_None in E.
Qed.

Lemma fence_open_length : String.length fence_open = 11.
Proof. done. Qed.

Lemma findall_mermaid_unfold s :
  findall mermaid_pattern s =
  match match_items mermaid_pattern s with
  | Some (caps, rest) => hd "" caps :: findall mermaid_pattern rest
  | None =>
      match s with
      | "" => []
      | String _ s' => findall mermaid_pattern s'
      end
  end.
Proof.
  rewrite findall_equation_1.
  pose proof (match_mermaid s) as H.
  destruct (match_items mermaid_pattern s) as [[caps rest]|].
  - destruct H as (body & -> & -> & _). simp findall.
    destruct (decide _) as [|Hn]; simp findall; [done|].
    exfalso. apply Hn. rewrite !str_length_app, fence_open_length. lia.
  - simp findall. destruct s; by simp findall.
Qed.

(** Without a block at its head, the blocks of [String ch s] are those of
    [s], one character further. *)
Lemma block_at_cons ch s pre body rest :
  (∀ body rest, ¬ block_at (String ch s) "" body rest) →
  block_at (String ch s) pre body rest ↔
  ∃ pre', pre = String ch pre' ∧ block_at s pre' body rest.
Proof.
  intros Hnone. unfold block_at. split.
  - destruct pre as [|ch' pre']; [intros H; by apply Hnone in H|].
    rewrite str_app_cons. intros [= -> ->]. eauto.
  - intros (pre' & -> & ->). by rewrite str_app_cons.
Qed.

Lemma blocks_cons_char ch s bodies :
  (∀ body rest, ¬ block_at (String ch s) "" body rest) →
  blocks s bodies → blocks (String ch s) bodies.
Proof.
  intros Hnone. destruct 1 as [s Hno|s pre body rest bodies [Hb Hfirst] Hrest].
  - apply blocks_nil. intros pre body rest H.
    apply block_at_cons in H as (pre' & -> & H); [|done]. by eapply Hno.
  - apply blocks_cons with (String ch pre) rest; [|done]. split.
    + apply block_at_cons; eauto.
    + intros pre' body' rest' H.
      apply block_at_cons in H as (pre'' & -> & H); [|done].
      apply Hfirst in H. simpl. lia.
Qed.

(** [findall] of the pattern returns the fenced blocks of the document. *)
Lemma findall_blocks s : blocks s (findall mermaid_pattern s).
Proof.
  remember (String.length s) as n eqn:Hn. revert s Hn.
  induction n as [n IH] using lt_wf_ind; intros s ->.
  rewrite findall_mermaid_unfold. pose proof (match_mermaid s) as H.
  destruct (match_items mermaid_pattern s) as [[caps rest]|].
  - destruct H as (body & -> & Hb & Hmin). simpl.
    apply blocks_cons with "" rest.
    + split; [done|]. intros [|ch pre'] body' rest' H'.
      * right. split; [done|]. by eapply Hmin.
      * left. simpl. lia.
    + eapply IH; [|done]. rewrite Hb, !str_length_app, fence_open_length. lia.
  - destruct s as [|ch s].
    + apply blocks_nil. intros pre body rest Hb.
      apply (f_equal String.length) in Hb.
      rewrite !str_length_app, fence_open_length in Hb. simpl in Hb. lia.
    + apply blocks_cons_char; [done|]. eapply IH; [|done]. simpl. lia.
Qed.



End RegexFacts.

(** * Facts about paths and diagram names *)
Module PathFacts.
Import Text TextFacts OsPath Extractor.
Local Arguments Ascii.eqb : simpl never.

Lemma rfind_negative c s : (rfind c s < 0)%Z → contains c s = false.
Proof.
  induction s as [|a s IH]; simpl; [done|].
  pose proof (rfind_bounds c s).
  destruct (Z.leb_spec 0 (rfind c s)); [lia|].
  destruct (Ascii.eqb a c); [lia|]. intros _. apply IH. lia.
Qed.

Lemma drop_S n s c t : drop n s = String c t → drop (S n) s = t.
Proof.
  revert s. induction n as [|n IH]; intros [|a s]; simpl; try done.
  - by intros [= _ ->].
  - apply IH.
Qed.

Lemma rfind_app_sep c d n :
  contains c n = false →
  rfind c (d +:+ String c n) = Z.of_nat (String.length d).
Proof.
  intros Hn. induction d as [|a d IH].
  - rewrite str_app_nil_l. simpl. rewrite (rfind_absent _ _ Hn). simpl.
    by rewrite Ascii.eqb_refl.
  - rewrite str_app_cons. simpl. rewrite IH.
    destruct (Z.leb_spec 0 (Z.of_nat (String.length d))); lia.
Qed.

Lemma basename_no_sep p : contains sep (basename p) = false.
Proof.
  unfold basename. pose proof (rfind_bounds sep p) as Hb.
  destruct (Z.leb_spec 0 (rfind sep p)) as [Hr|Hr].
  - destruct (rfind_found _ _ Hr) as (t & Ht & Hc).
    replace (Z.to_nat (rfind sep p + 1)) with (S (Z.to_nat (rfind sep p)))
      by lia.
    by rewrite (drop_S _ _ _ _ Ht).
  - replace (rfind sep p + 1)%Z with 0%Z by lia. simpl.
    replace (drop 0 p) with p by (by destruct p).
    apply rfind_negative. lia.
Qed.

Lemma basename_plain n : contains sep n = false → basename n = n.
Proof.
  intros H. unfold basename. rewrite (rfind_absent _ _ H). by destruct n.
Qed.

Lemma basename_app_sep d n :
  contains sep n = false → basename (d +:+ String sep n) = n.
Proof.
  intros H. unfold basename. rewrite (rfind_app_sep _ _ _ H).
  replace (Z.to_nat (Z.of_nat (String.length d) + 1))
    with (String.length (d +:+ String sep "")).
  - replace (d +:+ String sep n) with ((d +:+ String sep "") +:+ n).
    + apply drop_app_length.
    + by rewrite str_app_assoc.
  - rewrite str_length_app. simpl. lia.
Qed.

Lemma endswith_char_split s c :
  endswith_char s c = true → ∃ d, s = d +:+ String c "".
Proof.
  induction s as [|a s IH]; [done|]. simpl. destruct s as [|b s].
  - intros ->%Ascii.eqb_eq. by exists "".
  - intros H. destruct (IH H) as [d ->]. by exists (String a d).
Qed.

Lemma startswith_sep_false n :
  contains sep n = false → startswith n (String sep "") = false.
Proof.
  destruct n as [|a n]; [done|]. unfold startswith. simpl.
  rewrite (Ascii.eqb_sym sep a). by intros [-> _]%orb_false_elim.
Qed.

(** A name without separator is the last component of its [join]. *)
Lemma basename_join d n :
  contains sep n = false → basename (join d n) = n.
Proof.
  intros H. unfold join. rewrite (startswith_sep_false _ H).
  destruct d as [|a d]; [by apply basename_plain|].
  destruct (endswith_char (String a d) sep) eqn:E.
  - apply endswith_char_split in E as [d' ->].
    rewrite str_app_assoc. by apply basename_app_sep.
  - by apply basename_app_sep.
Qed.

Lemma join_inj d n1 n2 :
  contains sep n1 = false → contains sep n2 = false →
  join d n1 = join d n2 → n1 = n2.
Proof.
  intros H1 H2 E. apply (f_equal basename) in E.
  by rewrite !basename_join in E.
Qed.

(** The joined path is longer than a non-empty directory path. *)
Lemma join_ne_dir d n :
  d ≠ "" → contains sep n = false → n ≠ "" → join d n ≠ d.
Proof.
  intros Hd H Hn E. unfold join in E.
  rewrite (startswith_sep_false _ H) in E.
  destruct d as [|a d]; [done|].
  apply (f_equal String.length) in E.
  destruct (endswith_char (String a d) sep);
    rewrite ?str_length_app in E; destruct n; simpl in *; try done; lia.
Qed.

Lemma splitext_split p r e :
  splitext p = (r, e) → p = r +:+ e ∧ (e = "" ∨ ∃ e', e = String extsep e').
Proof.
  unfold splitext. destruct (_ && _) eqn:C; intros [= <- <-].
  - split; [by rewrite take_drop|]. right.
    apply andb_prop in C as [C _]. apply Z.ltb_lt in C.
    pose proof (rfind_bounds sep p).
    destruct (rfind_found extsep p) as (t & -> & _); [lia|]. eauto.
  - split; [by rewrite str_app_nil_r|]. by left.
Qed.

Lemma splitext_root_no_sep p :
  contains sep p = false → contains sep (fst (splitext p)) = false.
Proof.
  intros H. destruct (splitext p) as [r e] eqn:E.
  apply splitext_split in E as [-> _]. rewrite contains_app in H.
  by apply orb_false_elim in H as [? _].
Qed.

Lemma pretty_N_char_not_sep x : pretty_N_char x ≠ sep.
Proof. unfold pretty_N_char. by repeat case_match. Qed.

Lemma pretty_N_go_no_sep x s :
  contains sep s = false → contains sep (pretty_N_go x s) = false.
Proof.
  revert s. induction (N.lt_wf_0 x) as [x _ IH]; intros s Hs.
  destruct (decide (x = 0)%N) as [->|Hx]; [by rewrite pretty_N_go_0|].
  rewrite pretty_N_go_step by lia. apply IH.
  - apply N.div_lt; lia.
  - simpl. rewrite Hs, orb_false_r.
    apply Ascii.eqb_neq, pretty_N_char_not_sep.
Qed.

Lemma pretty_nat_no_sep (i : nat) : contains sep (pretty i) = false.
Proof.
  unfold pretty, pretty_nat, pretty, pretty_N.
  case_decide; [done|]. by apply pretty_N_go_no_sep.
Qed.

Lemma diagram_name_no_sep base i :
  contains sep base = false → contains sep (diagram_name base i) = false.
Proof.
  intros H. unfold diagram_name.
  by rewrite !contains_app, H, pretty_nat_no_sep.
Qed.

Lemma diagram_name_nonempty base i : diagram_name base i ≠ "".
Proof.
  unfold diagram_name. intros E. apply (f_equal String.length) in E.
  rewrite !str_length_app in E. simpl in E. lia.
Qed.

Lemma diagram_name_inj base i j :
  diagram_name base i = diagram_name base j → i = j.
Proof.
  unfold diagram_name. intros E.
  do 2 apply str_app_inv_head in E. apply str_app_inv_tail in E.
  by apply (inj pretty) in E.
Qed.

Lemma base_name_no_sep input : contains sep (base_name input) = false.
Proof. apply splitext_root_no_sep, basename_no_sep. Qed.

Lemma output_path_inj input out i j :
  output_path input out i = output_path input out j → i = j.
Proof.
  intros E. apply join_inj in E;
    [by apply diagram_name_inj in E|apply diagram_name_no_sep, base_name_no_sep..].
Qed.


Lemma output_path_ne_dir input out i : out ≠ "" → output_path input out i ≠ out.
Proof.
  intros H. apply join_ne_dir; [done|..].
  - apply diagram_name_no_sep, base_name_no_sep.
  - apply diagram_name_nonempty.
Qed.




End PathFacts.

(** * The extractor on the file system *)
Module ExtractorFacts.
Import Text TextFacts OsPath Py Extractor PathFacts RegexFacts.

Lemma writable_insert_file m p c q :
  writable (<[p := File c]> m) q = if decide (p = q) then true else writable m q.
Proof.
  unfold writable. rewrite lookup_insert. by case_decide.
Qed.




Lemma for_each_cons {S A B} (x : A) xs (acc : B) (body : A → B → M S B) s :
  for_each (x :: xs) acc body s =
  match body x acc s with
  | (Ok a, s') => for_each xs a body s'
  | (Raise e, s') => (Raise e, s')
  | (Hang, s') => (Hang, s')
  end.
Proof. done. Qed.

Section loop.
Context (input out : string).
Local Abbreviation path := (output_path input out).
Local Abbreviation body := (save_diagram out (base_name input)).

Lemma save_diagram_run i d acc w :
  body (i, d) acc w =
  if writable (fs w) (path i)
  then (Ok (acc ++ [path i]),
        World (<[path i := File d]> (fs w))
              (log w ++ [OpenWrite (path i) d;
                         Stdout ("Extracted diagram " +:+ pretty i
                                  +:+ " to " +:+ path i)]))
  else (Raise IsADirectoryError,
        World (fs w) (log w ++ [OpenWrite (path i) d])).
Proof.
  unfold save_diagram, mbind, M_bind, bind, write_text, writable,
    output_path, print, emit, ret.
  destruct (fs w !! _) as [[]|]; simpl; by rewrite <-?app_assoc.
Qed.




End loop.

Lemma os_makedirs_run p w :
  os_makedirs p w =
  if creatable (fs w) p
  then (Ok tt, World (mkdir (fs w) p) (log w ++ [Makedirs p]))
  else (Raise (match p with "" => FileNotFoundError | _ => FileExistsError end),
        World (fs w) (log w ++ [Makedirs p])).
Proof.
  unfold os_makedirs, creatable, mkdir.
  destruct p; [done|]. by destruct (fs w !! _) as [[]|].
Qed.

Lemma mkdir_lookup_ne m p q : p ≠ q → mkdir m p !! q = m !! q.
Proof.
  intros H. unfold mkdir. destruct (m !! p); [done|].
  by rewrite lookup_insert_ne.
Qed.


Lemma extract_unfold input out w :
  extract_mermaid_diagrams input out w =
  match os_makedirs out w with
  | (Ok _, w1) =>
      match read_text input w1 with
      | (Ok content, w2) =>
          for_each (enumerate 1 (Regex.findall mermaid_pattern content)) []
            (save_diagram out (base_name input)) w2
      | (Raise e, w2) => (Raise e, w2)
      | (Hang, w2) => (Hang, w2)
      end
  | (Raise e, w1) => (Raise e, w1)
  | (Hang, w1) => (Hang, w1)
  end.
Proof. done. Qed.

Lemma read_text_run p w :
  read_text p w =
  (match fs w !! p with
   | Some (File content) => Ok content
   | Some Dir => Raise IsADirectoryError
   | None => Raise FileNotFoundError
   end, World (fs w) (log w ++ [OpenRead p])).
Proof. unfold read_text. by destruct (fs w !! p) as [[]|]. Qed.

Lemma writable_mkdir m out q : q ≠ out → writable (mkdir m out) q = writable m q.
Proof. intros H. unfold writable. by rewrite mkdir_lookup_ne. Qed.

Lemma creatable_nonempty m out : creatable m out = true → out ≠ "".
Proof. by destruct out. Qed.



Lemma print_run line w :
  print line w = (Ok tt, World (fs w) (log w ++ [Stdout line])).
Proof. done. Qed.

Lemma print_loop (f : string → string) files w :
  for_each files tt (λ file _, print (f file)) w =
  (Ok tt, World (fs w) (log w ++ map (λ file, Stdout (f file)) files)).
Proof.
  revert w. induction files as [|x files IH]; intros w.
  - simpl. rewrite app_nil_r. by destruct w.
  - rewrite for_each_cons. unfold print at 1, emit. rewrite IH. simpl.
    by rewrite <-app_assoc.
Qed.

Lemma index_run {S A} (xs : list A) i (s : S) :
  index xs i s =
  (match xs !! i with Some x => Ok x | None => Raise IndexError end, s).
Proof. unfold index. by destruct (xs !! i). Qed.

(** [main] with a file argument, up to the call of the extractor. *)
Lemma main_unfold argv input w :
  argv !! 1 = Some input →
  main argv w =
  let out := default default_output_dir (argv !! 2) in
  let w1 := World (fs w) (log w ++ [AskExists input]) in
  match fs w !! input with
  | None =>
      (Raise (SystemExit 1),
       World (fs w)
         (log w ++ [AskExists input;
                    Stdout ("Error: File " +:+ input +:+ " not found")]))
  | Some _ =>
      match extract_mermaid_diagrams input out w1 with
      | (Ok files, w2) =>
          (Ok tt,
           World (fs w2)
             (log w2 ++
              [Stdout (nl +:+ "Extracted " +:+ pretty (length files)
                         +:+ " diagrams");
               Stdout (nl +:+ "To render these diagrams, run:")] ++
              map (λ file,
                     Stdout ("mmdc -i " +:+ file +:+ " -o "
                              +:+ replace file ".mmd" ".svg"
                              +:+ " --theme default --backgroundColor transparent"))
                  files))
      | (Raise e, w2) => (Raise e, w2)
      | (Hang, w2) => (Hang, w2)
      end
  end.
Proof.
  intros Hin. destruct argv as [|prog [|input' rest]]; try done.
  injection Hin as ->. unfold main.
  change (length (prog :: input :: rest) <? 2)%nat with false. cbv iota.
  unfold mbind, M_bind, bind.
  rewrite (index_run (prog :: input :: rest) 1 w). cbn [lookup list_lookup].
  assert ((if (2 <? length (prog :: input :: rest))%nat
           then index (prog :: input :: rest) 2 else ret default_output_dir)
            w = (Ok (default default_output_dir (rest !! 0)), w)) as ->.
  { by destruct rest. }
  unfold os_path_exists. cbn [fs log].
  destruct (fs w !! input) as [nd|]; cbn [negb].
  - change ((prog :: input :: rest) !! 2) with (rest !! 0). cbn zeta.
    destruct (extract_mermaid_diagrams _ _ _) as [[files|e|] w2]; [|done..].
    rewrite !print_run. cbn [fs log].
    rewrite (print_loop (λ file, "mmdc -i " +:+ file +:+ " -o "
      +:+ replace file ".mmd" ".svg"
      +:+ " --theme default --backgroundColor transparent")).
    cbn [fs log]. by rewrite <-!app_assoc.
  - rewrite print_run. unfold sys_exit, raise. cbn [fs log].
    by rewrite <-app_assoc.
Qed.

End ExtractorFacts.

(** * The extractor: statements of the specification *)
Module ExtractorClaims.
Import Text TextFacts OsPath Py Extractor PathFacts RegexFacts ExtractorFacts.

Example notes_blocks : Regex.findall mermaid_pattern notes = notes_bodies.
Proof. reflexivity. Qed.



(** The end-to-end example of the specification, with two blocks. *)
Example extract_notes :
  let '(r, w') :=
    extract_mermaid_diagrams "docs/notes.md" default_output_dir notes_world in
  r = Ok ["docs/assets/diagrams/mermaid/notes-diagram-1.mmd";
          "docs/assets/diagrams/mermaid/notes-diagram-2.mmd"] ∧
  fs w' !! "docs/assets/diagrams/mermaid/notes-diagram-1.mmd"
    = Some (File ("graph TD" +:+ nl +:+ "  A --> B")) ∧
  fs w' !! "docs/assets/diagrams/mermaid/notes-diagram-2.mmd"
    = Some (File "sequenceDiagram").
Proof. vm_compute. done. Qed.





(** The names of the example, computed. *)
Example notes_output_paths :
  output_paths "docs/notes.md" "out" 2
  = ["out/notes-diagram-1.mmd"; "out/notes-diagram-2.mmd"].
Proof. reflexivity. Qed.




(** C10.  Without a file argument the script prints the usage line and
    exits with status 1; printing is all it does: it does not ask whether
    any path exists and leaves the file system untouched. *)
Theorem main_usage argv w :
  length argv < 2 →
  run argv w = (Some 1%Z, World (fs w) (log w ++ [Stdout usage])).
Proof.
  intros H. unfold run, main.
  destruct (Nat.ltb_spec (length argv) 2) as [_|]; [done|lia].
Qed.

Lemma main_usage_witness :
  run ["extract-mermaid-diagrams.py"] notes_world
  = (Some 1%Z, World (fs notes_world) [Stdout usage]).
Proof.
  apply (main_usage ["extract-mermaid-diagrams.py"] notes_world).
  simpl. lia.
Defined.

End ExtractorClaims.

(** * The client against an arbitrary transport *)
Module QdrantFacts.
Import Py Json Qdrant.

Section client.
Variable requests : transport.
Variable self : QdrantClient.

(** Every operation is one request under [try ... except Exception]. *)
Lemma guarded_run {A} (r : request) (k : response → M world A)
    (message : string) (sentinel : A) w :
  try_except (response ← send requests r; k response) is_Exception
    (λ e, print message e ;; ret sentinel) w =
  match requests r with
  | Ok resp =>
      match k resp (w ++ [Sent r]) with
      | (Raise e, w') =>
          if is_Exception e
          then (Ok sentinel, w' ++ [Stdout message e])
          else (Raise e, w')
      | outcome => outcome
      end
  | Raise e =>
      if is_Exception e
      then (Ok sentinel, (w ++ [Sent r]) ++ [Stdout message e])
      else (Raise e, w ++ [Sent r])
  | Hang => (Hang, w ++ [Sent r])
  end.
Proof.
  unfold try_except, mbind, M_bind, bind, send.
  destruct (requests r) as [resp|e|]; [|by destruct (is_Exception e)|done].
  by destruct (k resp (w ++ [Sent r])) as [[a|e|] w'].
Qed.

Lemma inspects_ret {A} (a : A) : inspects (ret a).
Proof. intros w. left. by exists a. Qed.

Lemma inspects_raise {A} e : is_Exception e = true → inspects (@raise _ A e).
Proof. intros H w. right. by exists e. Qed.

Lemma inspects_bind {A B} (m : M world A) (k : A → M world B) :
  inspects m → (∀ a, inspects (k a)) → inspects (m ≫= k).
Proof.
  intros Hm Hk w. unfold mbind, M_bind, bind.
  destruct (Hm w) as [[a ->]|(e & -> & He)]; [apply Hk|].
  right. by exists e.
Qed.

Lemma inspects_get v key default : inspects (get v key default).
Proof. destruct v; by (apply inspects_ret || apply inspects_raise). Qed.

Lemma inspects_subscript v key : inspects (subscript v key).
Proof.
  destruct v; try by apply inspects_raise.
  simpl. destruct (_ !! _); by (apply inspects_ret || apply inspects_raise).
Qed.

Lemma inspects_iterate v : inspects (iterate v).
Proof. destruct v; by (apply inspects_ret || apply inspects_raise). Qed.

Lemma inspects_names cols : inspects (names cols).
Proof.
  induction cols as [|col cols IH]; [apply inspects_ret|].
  simpl. apply inspects_bind; [apply inspects_subscript|]. intros name.
  apply inspects_bind; [done|]. intros rest. apply inspects_ret.
Qed.

Lemma health_check_run w :
  health_check requests self w =
  let r := health_request self in
  match requests r with
  | Ok resp =>
      if (status_code resp =? 200)%Z then
        match json resp with
        | Ok (JDict kvs) =>
            (Ok (eq_str (from_option id JNull (kvs !! "status")) "ok"),
             w ++ [Sent r])
        | Ok _ =>
            (Ok false,
             (w ++ [Sent r]) ++ [Stdout "Health check failed: " AttributeError])
        | Raise e =>
            if is_Exception e
            then (Ok false, (w ++ [Sent r]) ++ [Stdout "Health check failed: " e])
            else (Raise e, w ++ [Sent r])
        | Hang => (Hang, w ++ [Sent r])
        end
      else (Ok false, w ++ [Sent r])
  | Raise e =>
      if is_Exception e
      then (Ok false, (w ++ [Sent r]) ++ [Stdout "Health check failed: " e])
      else (Raise e, w ++ [Sent r])
  | Hang => (Hang, w ++ [Sent r])
  end.
Proof.
  unfold health_check. rewrite guarded_run. cbn zeta.
  destruct (requests _) as [resp|e|]; [|done..].
  destruct (_ =? _)%Z; [|done].
  unfold mbind, M_bind, bind, response_json.
  destruct (json resp) as [[]|e|]; try done.
Qed.

Lemma create_collection_run collection_name vector_size w :
  create_collection requests self collection_name vector_size w =
  let r := create_request self collection_name vector_size in
  match requests r with
  | Ok resp =>
      (Ok ((status_code resp =? 200)%Z || (status_code resp =? 201)%Z),
       w ++ [Sent r])
  | Raise e =>
      if is_Exception e
      then (Ok false,
            (w ++ [Sent r]) ++ [Stdout "Failed to create collection: " e])
      else (Raise e, w ++ [Sent r])
  | Hang => (Hang, w ++ [Sent r])
  end.
Proof. unfold create_collection. by rewrite guarded_run. Qed.

Lemma upsert_points_run collection_name points w :
  upsert_points requests self collection_name points w =
  let r := upsert_request self collection_name points in
  match requests r with
  | Ok resp => (Ok (status_code resp =? 200)%Z, w ++ [Sent r])
  | Raise e =>
      if is_Exception e
      then (Ok false, (w ++ [Sent r]) ++ [Stdout "Failed to upsert points: " e])
      else (Raise e, w ++ [Sent r])
  | Hang => (Hang, w ++ [Sent r])
  end.
Proof. unfold upsert_points. by rewrite guarded_run. Qed.

Lemma inspects_collection_names data : inspects (collection_names data).
Proof.
  unfold collection_names.
  apply inspects_bind; [apply inspects_get|]. intros result.
  apply inspects_bind; [apply inspects_get|]. intros collections.
  apply inspects_bind; [apply inspects_iterate|]. intros cols.
  apply inspects_names.
Qed.

Local Ltac sentinel_cases :=
  cbn [fst]; split; [|split];
  [ intros ? [=]
  | intros [? ?]; first [congruence | reflexivity]
  | intros <- (? & ? & ? & ?); first [congruence | reflexivity] ].

(** A decoded body, inspected by [k] under the guard: the operation
    does not raise, and returns the sentinel when decoding failed. *)
Lemma guarded_json_cases {A} r (k : value → M world A) (other : A)
    message sentinel w :
  raises_Exceptions requests →
  (∀ data, inspects (k data)) →
  let out :=
    (try_except
       (response ← send requests r;
        if (status_code response =? 200)%Z then
          data ← response_json response; k data
        else ret other)
       is_Exception (λ e, print message e ;; ret sentinel) w).1 in
  (∀ e, out ≠ Raise e) ∧
  (transport_failed requests r → out = Ok sentinel) ∧
  (other = sentinel → parse_failed requests r → out = Ok sentinel).
Proof.
  intros [Ht Hp] Hk out. subst out. rewrite guarded_run.
  unfold transport_failed, parse_failed.
  destruct (requests r) as [resp|e|] eqn:Hr.
  - destruct (status_code resp =? 200)%Z.
    + unfold mbind, M_bind, bind, response_json.
      destruct (json resp) as [data|e|] eqn:Hj.
      * destruct (Hk data (w ++ [Sent r])) as [[a ->]|(e & -> & He)];
          [|rewrite He]; sentinel_cases.
      * rewrite (Hp _ _ _ Hr Hj). sentinel_cases.
      * sentinel_cases.
    + sentinel_cases.
  - rewrite (Ht _ _ Hr). sentinel_cases.
  - sentinel_cases.
Qed.

End client.
End QdrantFacts.

(** * The client: statements of the specification *)
Module QdrantClaims.
Import Py Json Qdrant QdrantFacts.

(** C2.  Against a transport whose exceptions derive from [Exception],
    none of the five operations raises; each returns its sentinel ([False]
    or an empty list) when the request fails in the transport, and those
    that decode the response also when decoding fails. *)
Theorem client_catches_exceptions requests self w
    collection_name vector_size points query_vector limit score_threshold :
  raises_Exceptions requests →
  let health := (health_check requests self w).1 in
  let created :=
    (create_collection requests self collection_name vector_size w).1 in
  let listed := (list_collections requests self w).1 in
  let upserted := (upsert_points requests self collection_name points w).1 in
  let found :=
    (search_points requests self collection_name query_vector limit
       score_threshold w).1 in
  (∀ e, health ≠ Raise e ∧ created ≠ Raise e ∧ listed ≠ Raise e ∧
        upserted ≠ Raise e ∧ found ≠ Raise e) ∧
  (transport_failed requests (health_request self) ∨
   parse_failed requests (health_request self) → health = Ok false) ∧
  (transport_failed requests
     (create_request self collection_name vector_size) →
   created = Ok false) ∧
  (transport_failed requests (list_request self) ∨
   parse_failed requests (list_request self) → listed = Ok []) ∧
  (transport_failed requests (upsert_request self collection_name points) →
   upserted = Ok false) ∧
  (transport_failed requests
     (search_request self collection_name query_vector limit score_threshold) ∨
   parse_failed requests
     (search_request self collection_name query_vector limit score_threshold) →
   found = Ok (JList [])).
Proof.
  intros Hexn health created listed upserted found.
  destruct (guarded_json_cases requests (health_request self)
              (λ data, status ← get data "status" JNull;
                       ret (eq_str status "ok"))
              false "Health check failed: " false w Hexn)
    as (Hh1 & Hh2 & Hh3).
  { intros data. apply inspects_bind; [apply inspects_get|].
    intros status. apply inspects_ret. }
  destruct (guarded_json_cases requests (list_request self)
              collection_names [] "Failed to list collections: " [] w Hexn
              inspects_collection_names)
    as (Hl1 & Hl2 & Hl3).
  destruct (guarded_json_cases requests
              (search_request self collection_name query_vector limit
                 score_threshold)
              (λ data, get data "result" (JList [])) (JList [])
              "Search failed: " (JList []) w Hexn)
    as (Hs1 & Hs2 & Hs3).
  { intros data. apply inspects_get. }
  assert (∀ e, created ≠ Raise e) as Hc1.
  { intros e. subst created. rewrite create_collection_run. cbn zeta.
    destruct (requests _) as [resp|e'|] eqn:Hr; [done| |done].
    by rewrite (proj1 Hexn _ _ Hr). }
  assert (∀ e, upserted ≠ Raise e) as Hu1.
  { intros e. subst upserted. rewrite upsert_points_run. cbn zeta.
    destruct (requests _) as [resp|e'|] eqn:Hr; [done| |done].
    by rewrite (proj1 Hexn _ _ Hr). }
  split; [by intros e|]. split; [intros [?|?]; auto|].
  split.
  { intros [e Hr]. subst created. rewrite create_collection_run. cbn zeta.
    by rewrite Hr, (proj1 Hexn _ _ Hr). }
  split; [intros [?|?]; auto|]. split.
  { intros [e Hr]. subst upserted. rewrite upsert_points_run. cbn zeta.
    by rewrite Hr, (proj1 Hexn _ _ Hr). }
  intros [?|?]; auto.
Qed.

Lemma refused_raises_Exceptions : raises_Exceptions refused.
Proof. split; [by intros r e [= <-]|by intros r resp e [=]]. Qed.

Lemma client_catches_exceptions_witness :
  (health_check refused default_client []).1 = Ok false ∧
  (create_collection refused default_client "prompt_embeddings" (JInt 1536) []).1
    = Ok false ∧
  (list_collections refused default_client []).1 = Ok [] ∧
  (upsert_points refused default_client "prompt_embeddings" (JList []) []).1
    = Ok false ∧
  (search_points refused default_client "prompt_embeddings" (JList [])
     (JInt 3) (JFloat 5 (-1)) []).1 = Ok (JList []).
Proof.
  destruct (client_catches_exceptions refused default_client []
              "prompt_embeddings" (JInt 1536) (JList []) (JList []) (JInt 3)
              (JFloat 5 (-1)) refused_raises_Exceptions)
    as (_ & Hh & Hc & Hl & Hu & Hs).
  split; [apply Hh; left; by exists ConnectionError|].
  split; [apply Hc; by exists ConnectionError|].
  split; [apply Hl; left; by exists ConnectionError|].
  split; [apply Hu; by exists ConnectionError|].
  apply Hs; left; by exists ConnectionError.
Defined.

(** The guard is [except Exception]: what does not derive from it
    escapes. *)
Example health_check_interrupted :
  (health_check interrupted default_client []).1 = Raise KeyboardInterrupt.
Proof. reflexivity. Qed.

Lemma eq_str_status (kvs : gmap string value) :
  eq_str (from_option id JNull (kvs !! "status")) "ok" = true ↔
  kvs !! "status" = Some (JStr "ok").
Proof.
  destruct (kvs !! "status") as [[]|]; simpl; try by split.
  rewrite String.eqb_eq. naive_solver.
Qed.

(** C8.  [health_check] returns [True] exactly when the response has
    status 200 and its body decodes to an object whose ["status"] is the
    string ["ok"].  A response with status 200 and a body that is not JSON,
    or JSON of any other shape, yields [False]. *)
Theorem health_check_true_iff requests self w :
  ((health_check requests self w).1 = Ok true ↔
   ∃ resp kvs,
     requests (health_request self) = Ok resp ∧
     status_code resp = 200%Z ∧
     json resp = Ok (JDict kvs) ∧
     kvs !! "status" = Some (JStr "ok")) ∧
  (∀ resp,
     requests (health_request self) = Ok resp →
     status_code resp = 200%Z →
     json resp = Raise JSONDecodeError ∨
     (∃ data, json resp = Ok data ∧
              ∀ kvs, data = JDict kvs → kvs !! "status" ≠ Some (JStr "ok")) →
     (health_check requests self w).1 = Ok false).
Proof.
  rewrite health_check_run. cbn zeta. split.
  - split.
    + destruct (requests _) as [resp|e|]; [|by destruct (is_Exception e)|done].
      destruct (Z.eqb_spec (status_code resp) 200) as [Hs|]; [|done].
      destruct (json resp) as [[| | | | | |kvs]|e|] eqn:Hj; try done.
      * intros [= H%eq_str_status]. by exists resp, kvs.
      * by destruct (is_Exception e).
    + intros (resp & kvs & -> & -> & -> & H%eq_str_status). simpl.
      by rewrite H.
  - intros resp -> -> [->|(data & -> & Hd)]; [done|]. simpl.
    destruct data as [| | | | | |kvs]; try done.
    specialize (Hd kvs eq_refl). rewrite <-eq_str_status in Hd.
    by destruct (eq_str _ _).
Qed.

Lemma health_check_true_iff_witness :
  (health_check (answering 200 (Raise JSONDecodeError)) default_client []).1
    = Ok false ∧
  (health_check
     (answering 200 (Ok (JDict {[ "status" := JStr "degraded" ]})))
     default_client []).1 = Ok false.
Proof.
  split.
  - apply (proj2 (health_check_true_iff
                    (answering 200 (Raise JSONDecodeError)) default_client [])
             (Response 200 (Raise JSONDecodeError)));
      [reflexivity|reflexivity|by left].
  - apply (proj2 (health_check_true_iff
                    (answering 200 (Ok (JDict {[ "status" := JStr "degraded" ]})))
                    default_client [])
             (Response 200 (Ok (JDict {[ "status" := JStr "degraded" ]}))));
      [reflexivity|reflexivity|].
    right. eexists. split; [reflexivity|].
    intros kvs [= <-]. vm_compute. discriminate.
Defined.

Example health_check_ok :
  (health_check (answering 200 (Ok (JDict {[ "status" := JStr "ok" ]})))
     default_client []).1 = Ok true.
Proof. reflexivity. Qed.

(** C5, as the specification has it, fails: the method has no [distance]
    parameter.  A call that passes one, by position or by keyword, ends in
    [TypeError] before any request is sent, whatever the service would
    answer. *)
Lemma create_collection_distance_counterexample :
  call_create_collection (answering 200 (Ok JNull)) default_client
    "prompt_embeddings" [JInt 1536; JStr "cosine"] [] []
  = (Raise TypeError, []) ∧
  call_create_collection (answering 200 (Ok JNull)) default_client
    "prompt_embeddings" [JInt 1536] [("distance", JStr "cosine")] []
  = (Raise TypeError, []).
Proof. split; reflexivity. Qed.

(** C5, amended.  [create_collection] takes a collection name and a
    vector size (1536 when omitted) and always asks for the metric
    ["Cosine"].  It returns [True] exactly when the service answers 200 or
    201; any other answer, "already exists" among them, and any exception
    of the transport that derives from [Exception] give [False]. *)
Theorem create_collection_result requests self collection_name vector_size w :
  let r := Request PUT (url self +:+ "/collections/" +:+ collection_name)
             (Some (JDict {[ "vectors" :=
                JDict {[ "size" := vector_size;
                         "distance" := JStr "Cosine" ]} ]})) in
  let out := create_collection requests self collection_name vector_size w in
  call_create_collection requests self collection_name [] [] w
    = create_collection requests self collection_name (JInt 1536) w ∧
  (out.1 = Ok true ↔
   ∃ resp, requests r = Ok resp ∧
           (status_code resp = 200%Z ∨ status_code resp = 201%Z)) ∧
  (∀ resp, requests r = Ok resp →
           status_code resp ≠ 200%Z → status_code resp ≠ 201%Z →
           out = (Ok false, w ++ [Sent r])) ∧
  (∀ e, requests r = Raise e → is_Exception e = true → out.1 = Ok false).
Proof.
  intros r out. subst out. split; [done|].
  rewrite create_collection_run. cbn zeta.
  change (create_request self collection_name vector_size) with r.
  split; [split|split].
  - destruct (requests r) as [resp|e|]; [|by destruct (is_Exception e)|done].
    intros [= H]. exists resp. split; [done|].
    apply orb_prop in H as [H|H]; apply Z.eqb_eq in H; auto.
  - by intros (resp & -> & [->| ->]).
  - intros resp -> H1 H2.
    apply Z.eqb_neq in H1, H2. by rewrite H1, H2.
  - by intros e -> ->.
Qed.

Lemma create_collection_result_witness :
  create_collection (answering 409 (Ok JNull)) default_client
    "prompt_embeddings" (JInt 1536) []
  = (Ok false,
     [Sent (Request PUT "http://localhost:6333/collections/prompt_embeddings"
              (Some (JDict {[ "vectors" :=
                 JDict {[ "size" := JInt 1536;
                          "distance" := JStr "Cosine" ]} ]})))]) ∧
  (create_collection refused default_client "prompt_embeddings" (JInt 1536) []).1
  = Ok false.
Proof.
  split.
  - apply (proj1 (proj2 (proj2 (create_collection_result
             (answering 409 (Ok JNull)) default_client "prompt_embeddings"
             (JInt 1536) []))) (Response 409 (Ok JNull)));
      [reflexivity|discriminate|discriminate].
  - apply (proj2 (proj2 (proj2 (create_collection_result
             refused default_client "prompt_embeddings" (JInt 1536) [])))
             ConnectionError); reflexivity.
Defined.

End QdrantClaims.

(** * The probe against an arbitrary child process *)
Module McpFacts.
Import Text Py Json McpProbe.

Lemma sent_requests_app tr1 tr2 :
  sent_requests (tr1 ++ tr2) = sent_requests tr1 ++ sent_requests tr2.
Proof. apply omap_app. Qed.

Lemma same_child_refl w : same_child w w.
Proof. by repeat split. Qed.

Lemma same_child_trans w1 w2 w3 :
  same_child w1 w2 → same_child w2 w3 → same_child w1 w3.
Proof. unfold same_child. intros H1 H2. destruct_and!. split_and!; congruence. Qed.

Lemma same_child_print template args w :
  same_child w (record (Stdout template args) w).
Proof.
  repeat split. simpl. rewrite sent_requests_app. simpl. apply app_nil_r.
Qed.

Section probe.
Variable json_loads : string → option value.

Lemma read_round_cons line rest w :
  pending w = line :: rest →
  read_round json_loads w =
  let w1 := set_pending rest w in
  match judge json_loads line with
  | EndOfFile =>
      (Ok (Some JNull), record (Stdout "No response received" []) w1)
  | Skip => (Ok None, w1)
  | SkipPrinted l =>
      (Ok None, record (Stdout "Skipping non-JSON line: {}" [JStr l]) w1)
  | Accept response =>
      (Ok (Some response), record (Stdout "Received: {}" [response]) w1)
  end.
Proof.
  intros Hp. unfold read_round, judge, mbind, M_bind, bind, readline.
  rewrite Hp. cbn zeta.
  destruct (String.eqb line ""); [done|].
  destruct (String.eqb (strip line) ""); [done|].
  destruct (startswith (strip line) "time="); [done|].
  by destruct (json_loads (strip line)).
Qed.

Lemma read_round_nil w :
  pending w = [] →
  read_round json_loads w =
  match at_end w with
  | Closed =>
      (Ok (Some JNull), record (Stdout "No response received" []) w)
  | Silent => (Hang, w)
  end.
Proof.
  intros Hp. unfold read_round, mbind, M_bind, bind, readline.
  rewrite Hp. by destruct (at_end w).
Qed.

Lemma same_child_set_pending lines w : same_child w (set_pending lines w).
Proof. by repeat split. Qed.

Lemma while_true_S {S A} fuel (body : M S (option A)) s :
  while_true (Datatypes.S fuel) body s =
  match body s with
  | (Ok (Some a), s') => (Ok a, s')
  | (Ok None, s') => while_true fuel body s'
  | (Raise e, s') => (Raise e, s')
  | (Hang, s') => (Hang, s')
  end.
Proof.
  simpl. unfold bind. by destruct (body s) as [[[a|]|e|] s'].
Qed.

(** The loop returns what [scan] finds, and otherwise ends with the
    stream: [None] at end of file, blocked when the stream stays open. *)
Lemma read_loop_scan lines : ∀ fuel w,
  pending w = lines → length lines < fuel →
  ∃ w', same_child w w' ∧
    match scan json_loads lines with
    | Some (response, rest) =>
        while_true fuel (read_round json_loads) w = (Ok response, w') ∧
        pending w' = rest
    | None =>
        while_true fuel (read_round json_loads) w =
        (match at_end w with Closed => Ok JNull | Silent => Hang end, w') ∧
        pending w' = []
    end.
Proof.
  induction lines as [|line lines IH]; intros [|fuel] w Hp Hf;
    try (simpl in Hf; lia); rewrite while_true_S.
  - rewrite read_round_nil by done. simpl.
    destruct (at_end w); eexists; (split; [|done]);
      [apply same_child_print|apply same_child_refl].
  - rewrite (read_round_cons _ _ _ Hp). cbn zeta. simpl scan.
    pose proof (same_child_set_pending lines w) as Hs.
    destruct (judge json_loads line) as [| |l|response].
    + eexists. split; [|done].
      eapply same_child_trans; [done|apply same_child_print].
    + destruct (IH fuel (set_pending lines w)) as (w' & Hc & H);
        [done|simpl in Hf; lia|].
      exists w'. split; [by eapply same_child_trans|done].
    + destruct (IH fuel (record (Stdout "Skipping non-JSON line: {}"
                                   [JStr l]) (set_pending lines w)))
        as (w' & Hc & H); [done|simpl in Hf; lia|].
      exists w'. split; [|done].
      eapply same_child_trans; [done|].
      eapply same_child_trans; [apply same_child_print|done].
    + eexists. split; [|done].
      eapply same_child_trans; [done|apply same_child_print].
Qed.

Lemma read_response_scan w :
  ∃ w', same_child w w' ∧
    match scan json_loads (pending w) with
    | Some (response, rest) =>
        read_response json_loads w = (Ok response, w') ∧ pending w' = rest
    | None =>
        read_response json_loads w =
        (match at_end w with Closed => Ok JNull | Silent => Hang end, w') ∧
        pending w' = []
    end.
Proof. apply read_loop_scan; [done|lia]. Qed.

Lemma read_response_no_raise w e w' :
  read_response json_loads w ≠ (Raise e, w').
Proof.
  destruct (read_response_scan w) as (w1 & _ & H).
  destruct (scan json_loads (pending w)) as [[response rest]|];
    destruct H as [-> _]; [done|]. by destruct (at_end w).
Qed.

(** The request is printed and written, then the loop reads; a write
    that fails is reported and answered with [None]. *)
Lemma send_mcp_request_run request w :
  send_mcp_request json_loads request w =
  let w0 := record (Stdout "Sending: {}" [request]) w in
  if stdin_ok w
  then read_response json_loads (record (Sent request) w0)
  else (Ok JNull,
        record (StdoutError "Error sending request: {}" BrokenPipeError) w0).
Proof.
  unfold send_mcp_request, try_except, mbind, M_bind, bind, print, emit,
    stdin_write. cbn [stdin_ok record]. cbn zeta.
  destruct (stdin_ok w); [|done].
  destruct (read_response json_loads _) as [[response|e|] w'] eqn:H;
    [done| |done].
  by apply read_response_no_raise in H.
Qed.







End probe.
End McpFacts.

(** * The probe: statements of the specification *)
Module McpClaims.
Import Text Py Json McpProbe McpFacts.







(** The same run, step by step. *)
Example refusing_child_run :
  trace (test_mcp_server decode_sample refusing_child).2 =
  [Stdout "Connecting to running MCP server..." [];
   Stdout "Command: {}"
     [JStr "docker exec -i prompt-alchemy-mcp prompt-alchemy --config /app/config.yaml serve"];
   Spawn cmd;
   Sleep 2;
   Stdout (nl +:+ "=== Test 1: Initialize ===") [];
   Stdout "Sending: {}" [init_request];
   Sent init_request;
   Stdout "Skipping non-JSON line: {}" [JStr "Server ready"];
   Stdout "Received: {}" [error_response];
   Stdout "❌ Initialize failed" [];
   Terminate;
   Wait 5;
   Kill].
Proof. vm_compute. reflexivity. Qed.

End McpClaims.

(** * More about the extractor *)
Module ExtractorExtras.
Import Text TextFacts OsPath Py Extractor PathFacts RegexFacts ExtractorFacts.

Lemma blocks_first_block s bodies body :
  blocks s bodies → body ∈ bodies →
  ∃ s' pre rest, first_block s' pre body rest.
Proof.
  induction 1 as [s Hno|s pre b rest bodies Hfirst _ IH]; intros Hin.
  - by apply elem_of_nil in Hin.
  - apply elem_of_cons in Hin as [->|Hin]; eauto.
Qed.

(** X1.  No extracted diagram holds a closing fence: a block ends at the
    first newline followed by three backquotes, so a fence nested in a
    block cuts it short. *)
Theorem bodies_hold_no_closing_fence doc body before after :
  body ∈ Regex.findall mermaid_pattern doc →
  body ≠ before +:+ fence_close +:+ after.
Proof.
  intros Hin ->.
  destruct (blocks_first_block _ _ _ (findall_blocks doc) Hin)
    as (s & pre & rest & Hb & Hmin).
  destruct (Hmin pre before (after +:+ fence_close +:+ rest)) as [?|[_ Hlen]];
    [|lia|].
  - unfold block_at in *. by rewrite Hb, !str_app_assoc.
  - rewrite !str_length_app in Hlen. simpl in Hlen. lia.
Qed.

Lemma bodies_hold_no_closing_fence_witness :
  "graph TD" +:+ nl +:+ "  A --> B" ≠ "graph TD" +:+ fence_close +:+ "".
Proof.
  apply (bodies_hold_no_closing_fence notes).
  rewrite ExtractorClaims.notes_blocks. apply list_elem_of_here.
Defined.





(** The loop stops at the first target that cannot be opened, with the
    diagrams before it saved. *)
Lemma save_loop_fail input out ds : ∀ start acc w j,
  j < length ds →
  (∀ i, i < j → writable (fs w) (output_path input out (start + i)) = true) →
  writable (fs w) (output_path input out (start + j)) = false →
  ∃ lg,
    for_each (enumerate start ds) acc (save_diagram out (base_name input)) w
    = (Raise IsADirectoryError,
       World (write_all input out (fs w) start (firstn j ds)) lg).
Proof.
  induction ds as [|d ds IH]; intros start acc w j Hj Hbefore Hat;
    [simpl in Hj; lia|].
  cbn [enumerate]. rewrite for_each_cons, save_diagram_run.
  destruct j as [|j].
  - rewrite Nat.add_0_r in Hat. rewrite Hat. by eexists.
  - pose proof (Hbefore 0 ltac:(lia)) as H0. rewrite Nat.add_0_r in H0.
    rewrite H0.
    match goal with
    | |- context [for_each _ _ _ ?w1] =>
        destruct (IH (S start) (acc ++ [output_path input out start]) w1 j)
          as [lg ->]
    end.
    + simpl in Hj. lia.
    + intros i Hi. cbn [fs]. rewrite writable_insert_file.
      case_decide; [done|]. replace (S start + i) with (start + S i) by lia.
      apply Hbefore. lia.
    + cbn [fs]. rewrite writable_insert_file.
      case_decide as E; [apply output_path_inj in E; lia|].
      by replace (S start + j) with (start + S j) by lia.
    + by eexists.
Qed.

(** X4.  When a directory sits at the path of diagram [j + 1] and the
    paths before it can be written, the extraction raises
    [IsADirectoryError] and leaves the first [j] diagrams saved: files
    written before the failure stay. *)
Theorem extract_stops_at_directory input out w doc j :
  fs w !! input = Some (File doc) →
  creatable (fs w) out = true →
  let ds := Regex.findall mermaid_pattern doc in
  j < length ds →
  forallb (writable (fs w)) (output_paths input out j) = true →
  writable (fs w) (output_path input out (S j)) = false →
  ∃ lg,
    extract_mermaid_diagrams input out w
    = (Raise IsADirectoryError,
       World (write_all input out (mkdir (fs w) out) 1 (firstn j ds)) lg).
Proof.
  intros Hin Hc ds Hj Hbefore Hat.
  assert (out ≠ "") as Hout by by eapply creatable_nonempty.
  assert (out ≠ input) as Hne.
  { intros E. unfold creatable in Hc. rewrite E in Hc.
    destruct input; [done|]. by rewrite Hin in Hc. }
  rewrite extract_unfold, os_makedirs_run, Hc, read_text_run. cbn [fs log].
  rewrite mkdir_lookup_ne, Hin by done. fold ds.
  apply save_loop_fail; [done| |].
  - intros i Hi. cbn [fs]. rewrite writable_mkdir by by apply output_path_ne_dir.
    rewrite forallb_forall in Hbefore. apply Hbefore.
    apply in_map, in_seq. lia.
  - cbn [fs]. by rewrite writable_mkdir by by apply output_path_ne_dir.
Qed.

(** X5.  The output directory argument is optional and the last one read:
    without it the script writes under [docs/assets/diagrams/mermaid], and
    arguments after it change nothing. *)
Theorem main_output_dir_argument prog input out extra w :
  run [prog; input] w = run [prog; input; default_output_dir] w ∧
  run (prog :: input :: out :: extra) w = run [prog; input; out] w.
Proof.
  unfold run. split.
  - by rewrite (main_unfold [prog; input] input),
      (main_unfold [prog; input; default_output_dir] input).
  - by rewrite (main_unfold (prog :: input :: out :: extra) input),
      (main_unfold [prog; input; out] input).
Qed.



Lemma take_app_length s t : take (String.length s) (s +:+ t) = s.
Proof.
  induction s as [|a s IH]; [by destruct t|].
  rewrite str_app_cons. simpl. by rewrite IH.
Qed.

Lemma splitext_stem stem ext :
  contains sep stem = false → all_dots stem = false →
  contains sep ext = false → contains extsep ext = false →
  splitext (stem +:+ String extsep ext) = (stem, String extsep ext).
Proof.
  intros Hs Hd He1 He2. unfold splitext.
  rewrite rfind_absent, (rfind_app_sep _ _ _ He2).
  2:{ rewrite contains_app, Hs. simpl. by rewrite He1. }
  replace (-1 <? Z.of_nat (String.length stem))%Z with true
    by (symmetry; apply Z.ltb_lt; lia).
  replace (Z.to_nat (Z.of_nat (String.length stem) - (-1 + 1)))
    with (String.length stem) by lia.
  replace (Z.to_nat (Z.of_nat (String.length stem)))
    with (String.length stem) by lia.
  change (Z.to_nat (-1 + 1)) with 0.
  replace (drop 0 (stem +:+ String extsep ext))
    with (stem +:+ String extsep ext) by (by destruct (stem +:+ _)).
  rewrite take_app_length, Hd. simpl. by rewrite drop_app_length.
Qed.

(** X7.  The diagrams of [<dir>/<stem>.<ext>] are named after [<stem>]:
    the directory and the extension after the last dot are dropped, as long
    as [<stem>] is not made of dots only. *)
Theorem output_path_of_stem dir stem ext out i :
  contains sep stem = false → all_dots stem = false →
  contains sep ext = false → contains extsep ext = false →
  output_path (dir +:+ "/" +:+ stem +:+ "." +:+ ext) out i
    = join out (stem +:+ "-diagram-" +:+ pretty i +:+ ".mmd") ∧
  output_path (stem +:+ "." +:+ ext) out i
    = join out (stem +:+ "-diagram-" +:+ pretty i +:+ ".mmd").
Proof.
  intros Hs Hd He1 He2.
  assert (contains sep (stem +:+ String extsep ext) = false) as Hn.
  { rewrite contains_app, Hs. simpl. by rewrite He1. }
  unfold output_path, base_name, diagram_name. split.
  - change (dir +:+ "/" +:+ stem +:+ "." +:+ ext)
      with (dir +:+ String sep (stem +:+ String extsep ext)).
    by rewrite basename_app_sep, splitext_stem.
  - change (stem +:+ "." +:+ ext) with (stem +:+ String extsep ext).
    by rewrite basename_plain, splitext_stem.
Qed.

Lemma output_path_of_stem_witness :
  output_path ("docs/v1.2" +:+ "/" +:+ "design.final" +:+ "." +:+ "md")
    default_output_dir 3
  = "docs/assets/diagrams/mermaid/design.final-diagram-3.mmd".
Proof.
  etransitivity.
  - apply (output_path_of_stem "docs/v1.2" "design.final" "md"
             default_output_dir 3); reflexivity.
  - reflexivity.
Defined.

(** X8.  An input whose file name has no dot, or only a leading one, has
    no extension to drop: its diagrams carry the whole file name. *)
Theorem output_path_without_extension dir name out i :
  contains sep name = false → contains extsep name = false →
  output_path (dir +:+ "/" +:+ name) out i
    = join out (name +:+ "-diagram-" +:+ pretty i +:+ ".mmd") ∧
  output_path (dir +:+ "/" +:+ "." +:+ name) out i
    = join out ("." +:+ name +:+ "-diagram-" +:+ pretty i +:+ ".mmd").
Proof.
  intros Hs Hd. unfold output_path, base_name, diagram_name. split.
  - change (dir +:+ "/" +:+ name) with (dir +:+ String sep name).
    rewrite basename_app_sep by done. unfold splitext.
    by rewrite (rfind_absent _ _ Hs), (rfind_absent _ _ Hd).
  - change (dir +:+ "/" +:+ "." +:+ name)
      with (dir +:+ String sep (String extsep name)).
    rewrite basename_app_sep by (simpl; by rewrite Hs).
    unfold splitext.
    rewrite rfind_absent by (simpl; by rewrite Hs).
    pose proof (rfind_app_sep extsep "" name Hd) as H.
    rewrite str_app_nil_l in H. by rewrite H.
Qed.

Lemma output_path_without_extension_witness :
  output_path ("docs" +:+ "/" +:+ "." +:+ "notes") "out" 1
  = "out/.notes-diagram-1.mmd".
Proof.
  etransitivity.
  - apply (output_path_without_extension "docs" "notes" "out" 1); reflexivity.
  - reflexivity.
Defined.

Lemma extract_stops_at_directory_witness :
  ∃ lg,
    extract_mermaid_diagrams "docs/notes.md" "out" Samples.blocked_world
    = (Raise IsADirectoryError,
       World (<["out/notes-diagram-1.mmd" := File ("graph TD" +:+ nl +:+ "  A --> B")]>
                (mkdir (fs Samples.blocked_world) "out")) lg).
Proof.
  apply (extract_stops_at_directory "docs/notes.md" "out"
           Samples.blocked_world notes 1).
  - reflexivity.
  - reflexivity.
  - vm_compute. lia.
  - reflexivity.
  - reflexivity.
Defined.

End ExtractorExtras.

(** * More about the client *)
Module QdrantExtras.
Import Py Json Qdrant QdrantFacts Samples.

Section client.
Variable requests : transport.
Variable self : QdrantClient.

(** X9.  [upsert_points] returns [True] exactly when the service answers
    200: unlike [create_collection] it takes 201 for a failure. *)
Theorem upsert_points_true_iff collection_name points w :
  let r := upsert_request self collection_name points in
  let out := upsert_points requests self collection_name points w in
  (out.1 = Ok true ↔
   ∃ resp, requests r = Ok resp ∧ status_code resp = 200%Z) ∧
  (∀ resp, requests r = Ok resp → status_code resp = 201%Z →
           out = (Ok false, w ++ [Sent r])).
Proof.
  intros r out. subst out. rewrite upsert_points_run. cbn zeta. fold r.
  split; [split|].
  - destruct (requests r) as [resp|e|]; [|by destruct (is_Exception e)|done].
    intros [= H%Z.eqb_eq]. by exists resp.
  - by intros (resp & -> & ->).
  - by intros resp -> ->.
Qed.

Lemma names_cons col cols (w : world) :
  names (col :: cols) w =
  match col with
  | JDict kvs =>
      match kvs !! "name" with
      | Some name =>
          match names cols w with
          | (Ok rest, w') => (Ok (name :: rest), w')
          | (Raise e, w') => (Raise e, w')
          | (Hang, w') => (Hang, w')
          end
      | None => (Raise KeyError, w)
      end
  | _ => (Raise TypeError, w)
  end.
Proof.
  destruct col as [| | | | | |kvs]; try done.
  cbn [names]. unfold mbind, M_bind, bind, subscript.
  destruct (kvs !! "name"); [|done]. unfold ret.
  by destruct (names cols w) as [[]].
Qed.

Lemma names_Ok cols ns (w : world) :
  Forall2 named cols ns → names cols w = (Ok ns, w).
Proof.
  induction 1 as [|col n cols ns (kvs & -> & Hn) _ IH]; [done|].
  by rewrite names_cons, Hn, IH.
Qed.

Lemma names_Ok_inv cols ns (w w' : world) :
  names cols w = (Ok ns, w') → Forall2 named cols ns.
Proof.
  revert ns. induction cols as [|col cols IH]; intros ns.
  - intros [= <- _]. constructor.
  - rewrite names_cons. destruct col as [| | | | | |kvs]; try done.
    destruct (kvs !! "name") as [n|] eqn:Hn; [|done].
    destruct (names cols w) as [[ns'|e|] w1] eqn:H; try done.
    intros [= <- <-]. constructor; [by exists kvs|]. by eapply IH.
Qed.

Lemma names_Raise cols e (w w' : world) :
  names cols w = (Raise e, w') → w' = w ∧ (e = KeyError ∨ e = TypeError).
Proof.
  induction cols as [|col cols IH]; [done|]. rewrite names_cons.
  destruct col as [| | | | | |kvs]; try by (intros [= <- <-]; auto).
  destruct (kvs !! "name") as [n|]; [|by intros [= <- <-]; auto].
  by destruct (names cols w) as [[ns'|e'|] w1].
Qed.

Lemma names_not_Hang cols (w w' : world) : names cols w ≠ (Hang, w').
Proof.
  destruct (inspects_names cols w) as [[ns H]|(e & H & _)]; by rewrite H.
Qed.

(** [list_collections] on a decoded answer. *)
Lemma list_collections_decoded resp data w :
  requests (list_request self) = Ok resp →
  status_code resp = 200%Z →
  json resp = Ok data →
  list_collections requests self w =
  match collection_names data (w ++ [Sent (list_request self)]) with
  | (Raise e, w') =>
      if is_Exception e
      then (Ok [], w' ++ [Stdout "Failed to list collections: " e])
      else (Raise e, w')
  | outcome => outcome
  end.
Proof.
  intros Hr Hs Hj. unfold list_collections. rewrite guarded_run, Hr, Hs.
  cbn [Z.eqb Pos.eqb]. unfold mbind, M_bind, bind, response_json at 1.
  rewrite Hj. by destruct (collection_names _ _) as [[]].
Qed.

Lemma collection_names_listing kvs res cols (w : world) :
  kvs !! "result" = Some (JDict res) →
  res !! "collections" = Some (JList cols) →
  collection_names (JDict kvs) w = names cols w.
Proof.
  intros Hk Hc. unfold collection_names, mbind, M_bind, bind, get, ret, iterate.
  rewrite Hk. cbn. rewrite Hc. cbn. by destruct (names cols w) as [[]].
Qed.

(** X10.  From a 200 answer whose body is
    [{"result": {"collections": [...]}}] with a ["name"] in every entry,
    [list_collections] returns the names in the order of the entries, and
    prints nothing. *)
Theorem list_collections_names resp kvs res cols ns w :
  requests (list_request self) = Ok resp →
  status_code resp = 200%Z →
  json resp = Ok (JDict kvs) →
  kvs !! "result" = Some (JDict res) →
  res !! "collections" = Some (JList cols) →
  Forall2 named cols ns →
  list_collections requests self w = (Ok ns, w ++ [Sent (list_request self)]).
Proof.
  intros Hr Hs Hj Hk Hc Hn.
  rewrite (list_collections_decoded _ _ _ Hr Hs Hj).
  by rewrite (collection_names_listing _ _ _ _ Hk Hc), (names_Ok _ _ _ Hn).
Qed.

(** X11.  One entry that is not an object with a ["name"] costs the whole
    listing: the [KeyError] or [TypeError] it causes is caught and printed,
    and [list_collections] returns the empty list, the names of the other
    entries with it. *)
Theorem list_collections_malformed_entry resp kvs res cols col w :
  requests (list_request self) = Ok resp →
  status_code resp = 200%Z →
  json resp = Ok (JDict kvs) →
  kvs !! "result" = Some (JDict res) →
  res !! "collections" = Some (JList cols) →
  col ∈ cols →
  (∀ name, ¬ named col name) →
  ∃ e,
    (e = KeyError ∨ e = TypeError) ∧
    list_collections requests self w
    = (Ok [], w ++ [Sent (list_request self);
                    Stdout "Failed to list collections: " e]).
Proof.
  intros Hr Hs Hj Hk Hc Hin Hbad.
  rewrite (list_collections_decoded _ _ _ Hr Hs Hj).
  rewrite (collection_names_listing _ _ _ _ Hk Hc).
  destruct (names cols _) as [[ns|e|] w'] eqn:Hn.
  - apply names_Ok_inv in Hn.
    apply list_elem_of_lookup in Hin as [i Hi].
    destruct (Forall2_lookup_l _ _ _ _ _ Hn Hi) as (name & _ & Hnamed).
    by apply Hbad in Hnamed.
  - apply names_Raise in Hn as [-> He]. exists e. split; [done|].
    rewrite <-app_assoc. by destruct He as [-> | ->].
  - by apply names_not_Hang in Hn.
Qed.

(** X12.  A 200 answer whose body is an object without ["result"], or
    whose ["result"] is an object without ["collections"], gives the empty
    list through the defaults of [get]: nothing is raised and nothing is
    printed. *)
Theorem list_collections_missing_keys resp kvs w :
  requests (list_request self) = Ok resp →
  status_code resp = 200%Z →
  json resp = Ok (JDict kvs) →
  kvs !! "result" = None ∨
  (∃ res, kvs !! "result" = Some (JDict res) ∧ res !! "collections" = None) →
  list_collections requests self w = (Ok [], w ++ [Sent (list_request self)]).
Proof.
  intros Hr Hs Hj Hk.
  rewrite (list_collections_decoded _ _ _ Hr Hs Hj).
  unfold collection_names, mbind, M_bind, bind, get, ret, iterate.
  destruct Hk as [Hk|(res & Hk & Hc)]; rewrite Hk; cbn.
  - by rewrite lookup_empty.
  - by rewrite Hc.
Qed.

(** X13.  From a 200 answer whose body is an object, [search_points]
    returns whatever sits under ["result"], unchanged and unchecked (it need
    not be a list), and the empty list when the key is missing. *)
Theorem search_points_result collection_name query_vector limit
    score_threshold resp kvs w :
  let r := search_request self collection_name query_vector limit
             score_threshold in
  requests r = Ok resp →
  status_code resp = 200%Z →
  json resp = Ok (JDict kvs) →
  search_points requests self collection_name query_vector limit
    score_threshold w
  = (Ok (default (JList []) (kvs !! "result")), w ++ [Sent r]).
Proof.
  intros r Hr Hs Hj. unfold search_points. fold r.
  rewrite guarded_run, Hr, Hs. cbn [Z.eqb Pos.eqb].
  unfold mbind, M_bind, bind, response_json, get, ret. rewrite Hj.
  by destruct (kvs !! "result").
Qed.

(** X15.  For an answer with a status other than 200 the three decoding
    operations return their sentinel without decoding the body: nothing is
    printed, whatever [response.json()] would have done. *)
Theorem error_status_skips_body collection_name query_vector limit
    score_threshold resp w :
  status_code resp ≠ 200%Z →
  (requests (health_request self) = Ok resp →
   health_check requests self w
   = (Ok false, w ++ [Sent (health_request self)])) ∧
  (requests (list_request self) = Ok resp →
   list_collections requests self w
   = (Ok [], w ++ [Sent (list_request self)])) ∧
  (let r := search_request self collection_name query_vector limit
              score_threshold in
   requests r = Ok resp →
   search_points requests self collection_name query_vector limit
     score_threshold w
   = (Ok (JList []), w ++ [Sent r])).
Proof.
  intros Hs%Z.eqb_neq. split; [|split].
  - intros Hr. unfold health_check. by rewrite guarded_run, Hr, Hs.
  - intros Hr. unfold list_collections. by rewrite guarded_run, Hr, Hs.
  - intros r Hr. unfold search_points. fold r. by rewrite guarded_run, Hr, Hs.
Qed.

(** The world after a guarded request whose body is inspected by [k]. *)
Lemma guarded_json_world {A} r (k : value → M world A) (other : A)
    message sentinel w :
  (∀ data, inspects (k data)) →
  ∃ tail,
    (try_except
       (response ← send requests r;
        if (status_code response =? 200)%Z then
          data ← response_json response; k data
        else ret other)
       is_Exception (λ e, print message e ;; ret sentinel) w).2
    = w ++ Sent r :: tail ∧
    (tail = [] ∨ ∃ e, tail = [Stdout message e]).
Proof.
  intros Hk. rewrite guarded_run.
  destruct (requests r) as [resp|e|].
  - destruct (status_code resp =? 200)%Z; [|exists []; auto].
    unfold mbind, M_bind, bind, response_json.
    destruct (json resp) as [data|e|].
    + destruct (Hk data (w ++ [Sent r])) as [[a ->]|(e & -> & ->)].
      * exists []. auto.
      * exists [Stdout message e]. cbn. rewrite <-app_assoc. eauto.
    + destruct (is_Exception e).
      * exists [Stdout message e]. cbn. rewrite <-app_assoc. eauto.
      * exists []. auto.
    + exists []. auto.
  - destruct (is_Exception e).
    + exists [Stdout message e]. cbn. rewrite <-app_assoc. eauto.
    + exists []. auto.
  - exists []. auto.
Qed.

(** X14.  Every operation sends exactly one request, whether it succeeds,
    fails or is interrupted, and prints one line at most (the report of a
    caught exception): there is no retry and no second call. *)
Theorem one_request_per_call collection_name vector_size points query_vector
    limit score_threshold w :
  let one (r : request) (w' : world) :=
    ∃ tail, w' = w ++ Sent r :: tail ∧
            (tail = [] ∨ ∃ message e, tail = [Stdout message e]) in
  one (health_request self) (health_check requests self w).2 ∧
  one (create_request self collection_name vector_size)
      (create_collection requests self collection_name vector_size w).2 ∧
  one (list_request self) (list_collections requests self w).2 ∧
  one (upsert_request self collection_name points)
      (upsert_points requests self collection_name points w).2 ∧
  one (search_request self collection_name query_vector limit score_threshold)
      (search_points requests self collection_name query_vector limit
         score_threshold w).2.
Proof.
  cbn zeta. split_and!.
  - destruct (guarded_json_world (health_request self)
                (λ data, status ← get data "status" JNull;
                         ret (eq_str status "ok"))
                false "Health check failed: " false w)
      as (tail & H & Ht).
    { intros data. apply inspects_bind; [apply inspects_get|].
      intros status. apply inspects_ret. }
    exists tail. split; [done|]. naive_solver.
  - rewrite create_collection_run. cbn zeta.
    destruct (requests _) as [resp|e|]; [by exists []; auto| |by exists []; auto].
    destruct (is_Exception e); [|by exists []; auto].
    eexists [_]. cbn. rewrite <-app_assoc. eauto.
  - destruct (guarded_json_world (list_request self) collection_names []
                "Failed to list collections: " [] w inspects_collection_names)
      as (tail & H & Ht).
    exists tail. split; [done|]. naive_solver.
  - rewrite upsert_points_run. cbn zeta.
    destruct (requests _) as [resp|e|]; [by exists []; auto| |by exists []; auto].
    destruct (is_Exception e); [|by exists []; auto].
    eexists [_]. cbn. rewrite <-app_assoc. eauto.
  - destruct (guarded_json_world
                (search_request self collection_name query_vector limit
                   score_threshold)
                (λ data, get data "result" (JList [])) (JList [])
                "Search failed: " (JList []) w)
      as (tail & H & Ht).
    { intros data. apply inspects_get. }
    exists tail. split; [done|]. naive_solver.
Qed.

End client.

Lemma upsert_points_true_iff_witness :
  upsert_points (answering 201 (Ok JNull)) default_client "prompt_embeddings"
    (JList []) []
  = (Ok false,
     [Sent (upsert_request default_client "prompt_embeddings" (JList []))]).
Proof.
  apply (proj2 (upsert_points_true_iff (answering 201 (Ok JNull))
                  default_client "prompt_embeddings" (JList []) [])
           (Response 201 (Ok JNull))); reflexivity.
Defined.

Lemma list_collections_names_witness :
  list_collections (answering 200 (Ok Samples.listing)) default_client []
  = (Ok [JStr "prompts"; JStr "embeddings"],
     [Sent (list_request default_client)]).
Proof.
  apply (list_collections_names (answering 200 (Ok Samples.listing))
           default_client (Response 200 (Ok Samples.listing))
           {[ "result" := JDict {[ "collections" :=
                JList [JDict {[ "name" := JStr "prompts" ]};
                       JDict {[ "name" := JStr "embeddings" ]}] ]} ]}
           {[ "collections" :=
                JList [JDict {[ "name" := JStr "prompts" ]};
                       JDict {[ "name" := JStr "embeddings" ]}] ]}
           [JDict {[ "name" := JStr "prompts" ]};
            JDict {[ "name" := JStr "embeddings" ]}]).
  - reflexivity.
  - reflexivity.
  - reflexivity.
  - reflexivity.
  - reflexivity.
  - repeat constructor; eexists; (split; [reflexivity|reflexivity]).
Defined.

Lemma list_collections_malformed_entry_witness :
  ∃ e,
    (e = KeyError ∨ e = TypeError) ∧
    list_collections (answering 200 (Ok Samples.broken_listing))
      default_client []
    = (Ok [], [Sent (list_request default_client);
               Stdout "Failed to list collections: " e]).
Proof.
  apply (list_collections_malformed_entry
           (answering 200 (Ok Samples.broken_listing))
           default_client (Response 200 (Ok Samples.broken_listing))
           {[ "result" := JDict {[ "collections" :=
                JList [JDict {[ "name" := JStr "prompts" ]}; JStr "embeddings"] ]} ]}
           {[ "collections" :=
                JList [JDict {[ "name" := JStr "prompts" ]}; JStr "embeddings"] ]}
           [JDict {[ "name" := JStr "prompts" ]}; JStr "embeddings"]
           (JStr "embeddings")).
  - reflexivity.
  - reflexivity.
  - reflexivity.
  - reflexivity.
  - reflexivity.
  - apply list_elem_of_further, list_elem_of_here.
  - intros name (kvs & H & _). discriminate.
Defined.

Lemma list_collections_missing_keys_witness :
  list_collections (answering 200 (Ok (JDict ∅))) default_client []
  = (Ok [], [Sent (list_request default_client)]).
Proof.
  apply (list_collections_missing_keys (answering 200 (Ok (JDict ∅)))
           default_client (Response 200 (Ok (JDict ∅))) ∅).
  - reflexivity.
  - reflexivity.
  - reflexivity.
  - left. reflexivity.
Defined.

Lemma search_points_result_witness :
  search_points
    (answering 200 (Ok (JDict {[ "result" := JStr "not a list" ]})))
    default_client "prompt_embeddings" (JList []) (JInt 3) (JFloat 5 (-1)) []
  = (Ok (JStr "not a list"),
     [Sent (search_request default_client "prompt_embeddings" (JList [])
              (JInt 3) (JFloat 5 (-1)))]).
Proof.
  etransitivity.
  - apply (search_points_result
             (answering 200 (Ok (JDict {[ "result" := JStr "not a list" ]})))
             default_client "prompt_embeddings" (JList []) (JInt 3)
             (JFloat 5 (-1))
             (Response 200 (Ok (JDict {[ "result" := JStr "not a list" ]})))
             {[ "result" := JStr "not a list" ]} []); reflexivity.
  - reflexivity.
Defined.

Lemma error_status_skips_body_witness :
  health_check (answering 503 Hang) default_client []
  = (Ok false, [Sent (health_request default_client)]).
Proof.
  apply (proj1 (error_status_skips_body (answering 503 Hang) default_client
                  "prompt_embeddings" (JList []) (JInt 3) (JFloat 5 (-1))
                  (Response 503 Hang) [] ltac:(discriminate))).
  reflexivity.
Defined.

End QdrantExtras.

(** * More about the probe *)
Module ProbeFacts.
Import Text Py Json McpProbe ProbeTerms McpFacts.

Lemma life_cycle_app tr1 tr2 :
  life_cycle (tr1 ++ tr2) = life_cycle tr1 ++ life_cycle tr2.
Proof. apply omap_app. Qed.

Lemma after_refl w : after w [] w.
Proof. unfold after. by rewrite app_nil_r. Qed.

Lemma after_trans w1 evs1 w2 evs2 w3 :
  after w1 evs1 w2 → after w2 evs2 w3 → after w1 (evs1 ++ evs2) w3.
Proof.
  unfold after. intros (H1 & ?) (H2 & ?). destruct_and!.
  split; [by rewrite H2, H1, app_assoc|]. split_and!; congruence.
Qed.

Lemma after_record e w : after w [e] (record e w).
Proof. by repeat split. Qed.

Lemma after_set_pending lines w : after w [] (set_pending lines w).
Proof. unfold after. simpl. by rewrite app_nil_r. Qed.

Lemma bind_run {S A B} (m : M S A) (k : A → M S B) s :
  (m ≫= k) s =
  match m s with
  | (Ok a, s') => k a s'
  | (Raise e, s') => (Raise e, s')
  | (Hang, s') => (Hang, s')
  end.
Proof. reflexivity. Qed.

Lemma probe_print_run template args w :
  print template args w = (Ok tt, record (Stdout template args) w).
Proof. reflexivity. Qed.

Lemma orderly_ret {A} (P : list value → Prop) (a : A) :
  P [] → orderly P (ret a).
Proof.
  intros HP w. exists []. split; [apply after_refl|]. split; [done|].
  split; [|done]. exists []. split; [done|]. by destruct (stdin_ok w).
Qed.

Lemma orderly_raise {A} (P : list value → Prop) e :
  P [] → is_Exception e = true → orderly P (@raise _ A e).
Proof.
  intros HP He w. exists []. split; [apply after_refl|]. split; [done|].
  split; [|done]. exists []. split; [done|]. by destruct (stdin_ok w).
Qed.

Lemma orderly_mono {A} (P Q : list value → Prop) (m : M world A) :
  (∀ l, P l → Q l) → orderly P m → orderly Q m.
Proof.
  intros HPQ Hm w. destruct (Hm w) as (evs & ? & ? & (l & ? & ?) & ?).
  exists evs. split_and!; eauto.
Qed.

Lemma orderly_quiet {A} (P : list value → Prop) (m : M world A) :
  P [] → orderly (eq []) m → orderly P m.
Proof. intros HP. apply orderly_mono. by intros l <-. Qed.

Lemma orderly_bind {A B} (P : list value → Prop) (m : M world A)
    (k : A → M world B) :
  P [] → orderly (eq []) m → (∀ a, orderly P (k a)) → orderly P (m ≫= k).
Proof.
  intros HP Hm Hk w. rewrite bind_run.
  destruct (Hm w) as (evs1 & Ha1 & Hl1 & (l1 & <- & Hs1) & Hr1).
  assert (sent_requests evs1 = []) as Hs1' by by destruct (stdin_ok w).
  destruct (m w) as [[a|e|] w1]; simpl in Ha1, Hr1.
  - destruct (Hk a w1) as (evs2 & Ha2 & Hl2 & (l2 & HP2 & Hs2) & Hr2).
    exists (evs1 ++ evs2). split; [by eapply after_trans|].
    split; [by rewrite life_cycle_app, Hl1, Hl2|].
    destruct Ha1 as (_ & _ & _ & Hin & Hend & _). split.
    + exists l2. split; [done|].
      by rewrite sent_requests_app, Hs1', Hs2, Hin.
    + destruct (k a w1).1; [done..|]. by rewrite <-Hin, <-Hend.
  - exists evs1. split; [done|]. split; [done|]. split; [|done].
    exists []. split; [done|]. rewrite Hs1'. by destruct (stdin_ok w).
  - exists evs1. split; [done|]. split; [done|]. split; [|done].
    exists []. split; [done|]. rewrite Hs1'. by destruct (stdin_ok w).
Qed.

Lemma orderly_print template args : orderly (eq []) (print template args).
Proof.
  intros w. exists [Stdout template args]. split; [apply after_record|].
  split; [done|]. split; [|done]. exists []. split; [done|].
  by destruct (stdin_ok w).
Qed.

Lemma orderly_get v key default :
  orderly (eq []) (get v key default).
Proof. destruct v; by (apply orderly_ret || apply orderly_raise). Qed.

Lemma orderly_subscript v key : orderly (eq []) (subscript v key).
Proof.
  destruct v; try by apply orderly_raise.
  simpl. destruct (_ !! _); by (apply orderly_ret || apply orderly_raise).
Qed.

Lemma orderly_item v i : orderly (eq []) (item v i).
Proof.
  destruct v; try by apply orderly_raise.
  - simpl. destruct (String.get _ _); by (apply orderly_ret || apply orderly_raise).
  - simpl. destruct (_ !! _); by (apply orderly_ret || apply orderly_raise).
Qed.

Lemma orderly_slice_to v n : orderly (eq []) (slice_to v n).
Proof. destruct v; by (apply orderly_ret || apply orderly_raise). Qed.

Lemma orderly_len v : orderly (eq []) (len v).
Proof. destruct v; by (apply orderly_ret || apply orderly_raise). Qed.

Lemma orderly_iterate v : orderly (eq []) (iterate v).
Proof. destruct v; by (apply orderly_ret || apply orderly_raise). Qed.

Lemma orderly_has_result response : orderly (eq []) (has_result response).
Proof.
  unfold has_result. destruct (truthy response); [|by apply orderly_ret].
  apply orderly_bind; [done|apply orderly_get|]. intros result.
  by apply orderly_ret.
Qed.

Lemma orderly_for_each {A B} (xs : list A) (body : A → B → M world B) :
  (∀ x acc, orderly (eq []) (body x acc)) →
  ∀ acc, orderly (eq []) (for_each xs acc body).
Proof.
  intros Hb. induction xs as [|x xs IH]; intros acc; [by apply orderly_ret|].
  simpl. by apply (orderly_bind (eq [])).
Qed.

Section probe.
Variable json_loads : string → option value.

(** The read loop, with what it adds to the trace. *)
Lemma read_loop_after lines : ∀ fuel w,
  pending w = lines → length lines < fuel →
  ∃ evs w', after w evs w' ∧ life_cycle evs = [] ∧ sent_requests evs = [] ∧
    match scan json_loads lines with
    | Some (response, rest) =>
        while_true fuel (read_round json_loads) w = (Ok response, w') ∧
        pending w' = rest
    | None =>
        while_true fuel (read_round json_loads) w =
        (match at_end w with Closed => Ok JNull | Silent => Hang end, w') ∧
        pending w' = []
    end.
Proof.
  induction lines as [|line lines IH]; intros [|fuel] w Hp Hf;
    try (simpl in Hf; lia); rewrite while_true_S.
  - rewrite read_round_nil by done. simpl.
    destruct (at_end w).
    + exists [Stdout "No response received" []]. eexists.
      split; [apply after_record|]. done.
    + exists []. eexists. split; [apply after_refl|]. done.
  - rewrite (read_round_cons _ _ _ _ Hp). cbn zeta. simpl scan.
    pose proof (after_set_pending lines w) as Hs.
    destruct (judge json_loads line) as [| |l|response].
    + exists [Stdout "No response received" []]. eexists. split; [|done].
      apply (after_trans _ [] _ [_] _ Hs), after_record.
    + destruct (IH fuel (set_pending lines w)) as (evs & w' & Hc & H);
        [done|simpl in Hf; lia|].
      exists evs, w'. split; [|done]. apply (after_trans _ [] _ _ _ Hs Hc).
    + destruct (IH fuel (record (Stdout "Skipping non-JSON line: {}"
                                   [JStr l]) (set_pending lines w)))
        as (evs & w' & Hc & Hl & Hq & H); [done|simpl in Hf; lia|].
      exists (Stdout "Skipping non-JSON line: {}" [JStr l] :: evs), w'.
      split; [|done].
      apply (after_trans _ [] _ _ _ Hs).
      apply (after_trans _ [_] _ _ _ (after_record _ _) Hc).
    + exists [Stdout "Received: {}" [response]]. eexists. split; [|done].
      apply (after_trans _ [] _ [_] _ Hs), after_record.
Qed.

(** A request written to a child that listens: what comes back is what
    [scan] finds in the lines the child has ready. *)
Lemma send_scan request w :
  stdin_ok w = true →
  ∃ evs w',
    after w evs w' ∧ life_cycle evs = [] ∧ sent_requests evs = [request] ∧
    match scan json_loads (pending w) with
    | Some (response, rest) =>
        send_mcp_request json_loads request w = (Ok response, w') ∧
        pending w' = rest
    | None =>
        send_mcp_request json_loads request w =
        (match at_end w with Closed => Ok JNull | Silent => Hang end, w') ∧
        pending w' = []
    end.
Proof.
  intros Hin. rewrite send_mcp_request_run, Hin. cbn zeta.
  set (w1 := record (Sent request) _).
  destruct (read_loop_after (pending w1) (S (length (pending w1))) w1)
    as (evs & w' & Ha & Hl & Hs & H); [done|lia|].
  exists (Stdout "Sending: {}" [request] :: Sent request :: evs), w'.
  split; [|split; [done|split; [by simpl; rewrite Hs|done]]].
  apply (after_trans _ [_] _ _ _ (after_record _ w)).
  apply (after_trans _ [_] _ _ _ (after_record _ _) Ha).
Qed.

Lemma orderly_send {A} (P Q : list value → Prop) request
    (k : value → M world A) :
  Q [] → (∀ l, Q l → P (request :: l)) →
  (∀ response, orderly Q (k response)) →
  orderly P (send_mcp_request json_loads request ≫= k).
Proof.
  intros HQ HP Hk w. rewrite bind_run.
  destruct (stdin_ok w) eqn:Hin.
  - destruct (send_scan request w Hin) as (evs1 & w1 & Ha1 & Hl1 & Hs1 & H).
    assert (∃ r, send_mcp_request json_loads request w = (r, w1) ∧
                 match r with
                 | Ok _ => True
                 | Raise _ => False
                 | Hang => at_end w = Silent
                 end) as (r & -> & Hr).
    { destruct (scan _ _) as [[response rest]|]; destruct H as [-> _];
        eexists; (split; [done|]); [done|]. by destruct (at_end w). }
    destruct r as [response|e|]; [|done|].
    + destruct (Hk response w1) as (evs2 & Ha2 & Hl2 & (l2 & HP2 & Hs2) & Hr2).
      exists (evs1 ++ evs2). split; [by eapply after_trans|].
      split; [by rewrite life_cycle_app, Hl1, Hl2|].
      destruct Ha1 as (_ & _ & _ & Hin1 & Hend & _). split.
      * exists (request :: l2). split; [by apply HP|].
        by rewrite sent_requests_app, Hs1, Hs2, Hin1, Hin.
      * destruct (k response w1).1; [done..|].
        destruct Hr2. split; congruence.
    + exists evs1. split; [done|]. split; [done|]. split; [|done].
      exists [request]. split; [by apply HP|done].
  - rewrite send_mcp_request_run, Hin. cbn zeta.
    set (w1 := record _ (record _ w)).
    destruct (Hk JNull w1) as (evs2 & Ha2 & Hl2 & (l2 & HP2 & Hs2) & Hr2).
    exists ([Stdout "Sending: {}" [request];
             StdoutError "Error sending request: {}" BrokenPipeError] ++ evs2).
    split.
    { refine (after_trans _ _ w1 _ _ _ Ha2).
      apply (after_trans _ [_] _ [_] _ (after_record _ w)), after_record. }
    split; [by rewrite life_cycle_app, Hl2|]. split.
    + exists (request :: l2). split; [by apply HP|].
      rewrite sent_requests_app, Hs2. simpl. by rewrite Hin.
    + destruct (k JNull w1).1; [done..|].
      destruct Hr2 as [Hr2 _]. simpl in Hr2. congruence.
Qed.

Lemma orderly_then {A B} (P : list value → Prop) (m : M world A)
    (k : A → M world B) :
  orderly P m → (∀ a, orderly (eq []) (k a)) → orderly P (m ≫= k).
Proof.
  intros Hm Hk w. rewrite bind_run.
  destruct (Hm w) as (evs1 & Ha1 & Hl1 & (l1 & HP1 & Hs1) & Hr1).
  destruct (m w) as [[a|e|] w1]; simpl in Ha1, Hr1;
    [|exists evs1; split_and!; eauto..].
  destruct (Hk a w1) as (evs2 & Ha2 & Hl2 & (l2 & <- & Hs2) & Hr2).
  exists (evs1 ++ evs2). split; [by eapply after_trans|].
  split; [by rewrite life_cycle_app, Hl1, Hl2|].
  destruct Ha1 as (_ & _ & _ & Hin & Hend & _). split.
  - exists l1. split; [done|].
    rewrite sent_requests_app, Hs1, Hs2. destruct (stdin_ok w1); apply app_nil_r.
  - destruct (k a w1).1; [done..|]. destruct Hr2. split; congruence.
Qed.

Local Ltac quiet_walk :=
  repeat first
    [ apply orderly_print | apply orderly_get | apply orderly_subscript
    | apply orderly_item | apply orderly_slice_to | apply orderly_len
    | apply orderly_iterate | apply orderly_has_result
    | by apply orderly_ret
    | apply orderly_for_each; intros
    | apply orderly_bind; [done| |intros ?; cbv beta]
    | match goal with
      | |- orderly _ (if ?b then _ else _) => destruct b
      end ].

(** Tests 2 and 3 write at most the [tools/call] request. *)
Lemma list_and_call_tools_orderly response :
  orderly (λ l, l = [] ∨ ∃ tool_name, l = [tool_request tool_name])
    (list_and_call_tools json_loads response).
Proof.
  unfold list_and_call_tools.
  apply orderly_bind; [by left|apply orderly_has_result|intros listed].
  apply orderly_bind; [by left|quiet_walk|intros ?; cbv beta].
  clear listed.
  apply orderly_bind; [by left|apply orderly_has_result|intros listed].
  destruct listed; [|by apply orderly_ret; left].
  apply orderly_bind; [by left|apply orderly_subscript|intros result].
  apply orderly_bind; [by left|apply orderly_get|intros tools].
  destruct (truthy tools); [|by apply orderly_ret; left].
  apply orderly_bind; [by left|apply orderly_item|intros first_tool].
  apply orderly_bind; [by left|apply orderly_get|intros tool_name].
  apply orderly_bind; [by left|apply orderly_print|intros ?; cbv beta].
  apply (orderly_send _ (eq [])); [done|intros l <-; right; eauto|].
  intros called. quiet_walk.
Qed.

(** The [try] block once the child is started: what follows the sleep
    is orderly and writes the requests of the three tests in order. *)
Lemma exchange_run w :
  spawn_ok w = true →
  ∃ evs,
    trace (exchange json_loads w).2 = trace w ++ Spawn cmd :: Sleep 2 :: evs ∧
    spawned (exchange json_loads w).2 = true ∧
    exits_in_time (exchange json_loads w).2 = exits_in_time w ∧
    life_cycle evs = [] ∧
    (∃ l, probe_requests l ∧
          sent_requests evs = if stdin_ok w then l else []) ∧
    match (exchange json_loads w).1 with
    | Ok _ => True
    | Raise e => is_Exception e = true
    | Hang => stdin_ok w = true ∧ at_end w = Silent
    end.
Proof.
  intros Hsp. unfold exchange.
  rewrite bind_run. unfold popen. rewrite Hsp. cbv beta iota.
  rewrite bind_run. unfold emit. cbv beta iota.
  rewrite bind_run, probe_print_run. cbv beta iota.
  match goal with
  | |- context [(send_mcp_request json_loads init_request ≫= ?k) ?w3] =>
      assert (orderly probe_requests
                (send_mcp_request json_loads init_request ≫= k)) as Hord;
      [|destruct (Hord w3) as (evs & Ha & Hl & Hs & Hr);
        destruct ((send_mcp_request json_loads init_request ≫= k) w3)
          as [r w']]
  end.
  { apply (orderly_send _ (λ l, l = [] ∨ l = [tools_request] ∨
                                ∃ n, l = [tools_request; tool_request n])).
    { by left. }
    { intros l [->|[->|[n ->]]]; unfold probe_requests; eauto. }
    intros response.
    apply orderly_bind; [by left|apply orderly_has_result|intros initialized].
    destruct initialized; [|by apply orderly_quiet; [left|apply orderly_print]].
    do 7 (apply orderly_bind;
          [by left|first [apply orderly_print|apply orderly_subscript
                         |apply orderly_get]|intros ?; cbv beta]).
    eapply orderly_send; [| |intros response2; apply orderly_then;
                               [apply list_and_call_tools_orderly|
                                intros; apply orderly_print]].
    { by left. }
    intros l [->|[n ->]]; eauto. }
  destruct Ha as (Htr & _ & Hspawned & Hin & Hend & Hexit). simpl in *.
  exists (Stdout (nl +:+ "=== Test 1: Initialize ===") [] :: evs).
  split; [by rewrite Htr, <-!app_assoc|]. split; [done|]. split; [done|].
  split; [done|]. split; [done|]. done.
Qed.

Lemma exchange_not_started w :
  spawn_ok w = false → exchange json_loads w = (Raise FileNotFoundError, w).
Proof.
  intros Hsp. unfold exchange. rewrite bind_run. unfold popen. by rewrite Hsp.
Qed.

(** The [finally] block never fails, and does [farewell]. *)
Lemma teardown_farewell w :
  ∃ w', teardown w = (Ok tt, w') ∧ after w (farewell w) w' ∧
        pending w' = pending w.
Proof.
  unfold teardown, try_except, farewell. rewrite bind_run.
  unfold terminate, wait, kill.
  destruct (spawned w) eqn:Hs; cbn [spawned record]; rewrite ?Hs.
  - change (exits_in_time (record Terminate w)) with (exits_in_time w).
    destruct (exits_in_time w) eqn:He; cbn [spawned record]; rewrite ?Hs.
    + eexists. split; [done|]. split; [|done].
      apply (after_trans _ [_] _ [_] _ (after_record _ w)), after_record.
    + eexists. split; [done|]. split; [|done].
      apply (after_trans _ [_] _ [_; _] _ (after_record _ w)).
      apply (after_trans _ [_] _ [_] _ (after_record _ _)), after_record.
  - eexists. split; [done|]. split; [apply after_refl|done].
Qed.

(** The two lines printed before the [try]. *)
Lemma test_mcp_server_unfold w :
  test_mcp_server json_loads w =
  try_finally
    (try_except (exchange json_loads) is_Exception
       (λ e, print_error "Error running test: {}" e ;; emit Traceback))
    teardown
    (record (Stdout "Command: {}" [JStr (String.concat " " cmd)])
       (record (Stdout "Connecting to running MCP server..." []) w)).
Proof. reflexivity. Qed.

(** Every run of the probe: it never raises, it blocks only while it
    waits for a response, and then without touching the child again. *)
Lemma probe_run w :
  ∃ evs,
    trace (test_mcp_server json_loads w).2 = trace w ++ evs ∧
    (∃ l, probe_requests l ∧
          sent_requests evs = if spawn_ok w && stdin_ok w then l else []) ∧
    match (test_mcp_server json_loads w).1 with
    | Ok _ =>
        life_cycle evs =
        if spawn_ok w
        then Spawn cmd :: Sleep 2 :: Terminate :: Wait 5 ::
             (if exits_in_time w then [] else [Kill])
        else farewell w
    | Raise _ => False
    | Hang =>
        spawn_ok w = true ∧ stdin_ok w = true ∧ at_end w = Silent ∧
        life_cycle evs = [Spawn cmd; Sleep 2]
    end.
Proof.
  rewrite test_mcp_server_unfold. set (w0 := record _ (record _ w)).
  set (c1 := Stdout "Connecting to running MCP server..." []).
  set (c2 := Stdout "Command: {}" [JStr (String.concat " " cmd)]).
  assert (trace w0 = trace w ++ [c1; c2]) as Hw0.
  { subst w0. simpl. by rewrite <-app_assoc. }
  unfold try_finally, try_except.
  destruct (spawn_ok w) eqn:Hsp.
  - destruct (exchange_run w0 Hsp) as (evs & Htr & Hspawned & Hexit & Hl &
                                        (l & HP & Hs) & Hr).
    change (stdin_ok w0) with (stdin_ok w) in *.
    change (at_end w0) with (at_end w) in *.
    change (exits_in_time w0) with (exits_in_time w) in *.
    destruct (exchange json_loads w0) as [[[]|e|] w1];
      cbn [fst snd] in Htr, Hspawned, Hr, Hexit; rewrite Hw0 in Htr.
    + destruct (teardown_farewell w1) as (w2 & -> & (Htr2 & _) & _).
      unfold farewell in Htr2. rewrite Hspawned, Hexit in Htr2.
      cbn [fst snd andb].
      exists ([c1; c2; Spawn cmd; Sleep 2] ++ evs ++
              Terminate :: Wait 5 :: (if exits_in_time w then [] else [Kill])).
      split; [by rewrite Htr2, Htr, <-!app_assoc|]. split.
      * exists l. split; [done|]. rewrite !sent_requests_app, Hs.
        destruct (exits_in_time w); simpl; apply app_nil_r.
      * rewrite !life_cycle_app, Hl. by destruct (exits_in_time w).
    + rewrite Hr, bind_run. unfold print_error, emit. cbv beta iota.
      set (w1' := record Traceback _).
      destruct (teardown_farewell w1') as (w2 & -> & (Htr2 & _) & _).
      unfold farewell in Htr2.
      change (spawned w1') with (spawned w1) in Htr2.
      change (exits_in_time w1') with (exits_in_time w1) in Htr2.
      rewrite Hspawned, Hexit in Htr2. cbn [fst snd andb].
      exists ([c1; c2; Spawn cmd; Sleep 2] ++ evs ++
              [StdoutError "Error running test: {}" e; Traceback] ++
              Terminate :: Wait 5 :: (if exits_in_time w then [] else [Kill])).
      split.
      { rewrite Htr2. subst w1'. simpl trace. by rewrite Htr, <-!app_assoc. }
      split.
      * exists l. split; [done|]. rewrite !sent_requests_app, Hs.
        destruct (exits_in_time w); simpl; apply app_nil_r.
      * rewrite !life_cycle_app, Hl. by destruct (exits_in_time w).
    + cbn [fst snd andb]. exists ([c1; c2; Spawn cmd; Sleep 2] ++ evs).
      split; [by rewrite Htr, <-!app_assoc|].
      destruct Hr as [Hin Hend]. split.
      * exists l. split; [done|]. by rewrite !sent_requests_app, Hs.
      * split; [done|]. split; [done|]. split; [done|].
        by rewrite !life_cycle_app, Hl.
  - rewrite exchange_not_started by done. cbn [is_Exception].
    rewrite bind_run. unfold print_error, emit. cbv beta iota.
    set (w1 := record Traceback _).
    destruct (teardown_farewell w1) as (w2 & -> & (Htr2 & _) & _).
    change (farewell w1) with (farewell w) in Htr2. cbn [fst snd andb].
    exists ([c1; c2; StdoutError "Error running test: {}" FileNotFoundError;
             Traceback] ++ farewell w).
    split.
    { change (trace w1) with
        ((trace w0 ++
          [StdoutError "Error running test: {}" FileNotFoundError]) ++
         [Traceback]) in Htr2.
      by rewrite Htr2, Hw0, <-!app_assoc. }
    split.
    * exists [init_request]. split; [by left|].
      rewrite !sent_requests_app. unfold farewell.
      by destruct (spawned w), (exits_in_time w).
    * rewrite !life_cycle_app. unfold farewell.
      by destruct (spawned w), (exits_in_time w).
Qed.




Lemma has_result_pure response w : ∃ r, has_result response w = (r, w).
Proof.
  unfold has_result. destruct (truthy response); [|by eexists].
  rewrite bind_run. destruct response; by eexists.
Qed.


Lemma popen_started w :
  spawn_ok w = true →
  popen w =
  (Ok tt, World (spawn_ok w) true (stdin_ok w) (pending w) (at_end w)
            (exits_in_time w) (trace w ++ [Spawn cmd])).
Proof. intros Hsp. unfold popen. by rewrite Hsp. Qed.

(** The [try] block up to the test of the initialize response. *)
Lemma exchange_first w :
  spawn_ok w = true →
  match send_mcp_request json_loads init_request (started w) with
  | (Hang, w1) => exchange json_loads w = (Hang, w1)
  | (Raise e, w1) => exchange json_loads w = (Raise e, w1)
  | (Ok response, w1) =>
      match has_result response w1 with
      | (Ok false, _) =>
          exchange json_loads w =
          (Ok tt, record (Stdout "❌ Initialize failed" []) w1)
      | (Ok true, _) =>
          initialized response →
          ∃ name version,
            exchange json_loads w =
            (send_mcp_request json_loads tools_request ≫=
               λ response,
                 list_and_call_tools json_loads response ;;
                 print (nl +:+ "=== MCP Server Test Complete ===") [])
              (record (Stdout (nl +:+ "=== Test 2: List Tools ===") [])
                 (record (Stdout "  Server: {} v{}" [name; version])
                    (record (Stdout "✅ Initialize successful" []) w1)))
      | (Raise e, _) => exchange json_loads w = (Raise e, w1)
      | (Hang, _) => True
      end
  end.
Proof.
  intros Hsp. unfold exchange.
  rewrite bind_run, (popen_started _ Hsp). cbv beta iota.
  rewrite bind_run. unfold emit. cbv beta iota.
  rewrite bind_run, probe_print_run. cbv beta iota.
  rewrite bind_run. fold (started w).
  destruct (send_mcp_request json_loads init_request (started w))
    as [[response|e|] w1]; [|done..].
  rewrite bind_run.
  destruct (has_result_pure response w1) as [r Hh]. rewrite Hh.
  destruct r as [[]|e|]; [|done..].
  intros (kvs & result & -> & Hk & Hne & Hinfo).
  rewrite bind_run, probe_print_run. cbv beta iota.
  rewrite bind_run. simpl subscript. rewrite Hk. unfold ret at 1.
  cbv beta iota. rewrite bind_run. simpl get. unfold ret at 1.
  cbv beta iota. rewrite bind_run.
  destruct (result !! "serverInfo") as [[| | | | | |info]|]; try done;
    simpl; eexists _, _; reflexivity.
Qed.

(** The run of the probe from the outcome of its [try] block. *)
Lemma probe_wrap w r w1 :
  exchange json_loads (announced w) = (r, w1) →
  match r with Raise e => is_Exception e = true | _ => True end →
  ∃ w',
    test_mcp_server json_loads w =
      (match r with Hang => Hang | _ => Ok tt end, w') ∧
    pending w' = pending w1 ∧
    trace w' =
      trace w1 ++
      match r with
      | Ok _ => farewell w1
      | Raise e =>
          StdoutError "Error running test: {}" e :: Traceback :: farewell w1
      | Hang => []
      end.
Proof.
  intros He Hr. rewrite test_mcp_server_unfold. fold (announced w).
  unfold try_finally, try_except. rewrite He.
  destruct r as [[]|e|].
  - destruct (teardown_farewell w1) as (w2 & -> & (Htr2 & _) & Hp).
    by exists w2.
  - rewrite Hr, bind_run. unfold print_error, emit. cbv beta iota.
    set (w1' := record Traceback _).
    destruct (teardown_farewell w1') as (w2 & -> & (Htr2 & _) & Hp).
    exists w2. split; [done|]. split; [done|].
    rewrite Htr2. subst w1'. simpl. by rewrite <-!app_assoc.
  - exists w1. by rewrite app_nil_r.
Qed.

Lemma ret_run {S A} (a : A) (s : S) : ret a s = (Ok a, s).
Proof. reflexivity. Qed.



Lemma for_each_step {S A B} x (xs : list A) (acc : B)
    (body : A → B → M S B) s :
  for_each (x :: xs) acc body s =
  match body x acc s with
  | (Ok acc', s') => for_each xs acc' body s'
  | (Raise e, s') => (Raise e, s')
  | (Hang, s') => (Hang, s')
  end.
Proof. reflexivity. Qed.





End probe.
End ProbeFacts.

(** * The probe: further properties *)
Module McpExtras.
Import Text Py Json McpProbe ProbeTerms McpFacts ProbeFacts.

Lemma trace_started w :
  trace (started (announced w)) =
  trace w ++
  [Stdout "Connecting to running MCP server..." [];
   Stdout "Command: {}" [JStr (String.concat " " cmd)];
   Spawn cmd; Sleep 2;
   Stdout (nl +:+ "=== Test 1: Initialize ===") []].
Proof. simpl. by rewrite <-!app_assoc. Qed.



(** X16.  The probe lets no exception escape.  A run that ends, ends
    normally, so the script exits with status 0 whatever the tests found;
    a run that does not end is blocked on a child that was started, took
    the request and keeps its output open without answering. *)
Theorem probe_never_raises json_loads w :
  exit_status (test_mcp_server json_loads w).1 = Some 0%Z ∨
  (test_mcp_server json_loads w).1 = Hang ∧
  spawn_ok w = true ∧ stdin_ok w = true ∧ at_end w = Silent.
Proof.
  destruct (probe_run json_loads w) as (evs & _ & _ & H).
  destruct (test_mcp_server json_loads w).1 as [a|e|];
    [by left|done|right; tauto].
Qed.

(** X17.  The life cycle of the child in a run that begins without a
    process: nothing when it cannot be started; otherwise it is started,
    given two seconds and, unless the run blocks, terminated and awaited
    for five seconds, and killed only when it has not exited by then.  In
    a run that blocks the child is never terminated. *)
Theorem probe_life_cycle json_loads w :
  spawned w = false →
  ∃ evs,
    trace (test_mcp_server json_loads w).2 = trace w ++ evs ∧
    life_cycle evs =
      if spawn_ok w
      then Spawn cmd :: Sleep 2 ::
           match (test_mcp_server json_loads w).1 with
           | Hang => []
           | _ => Terminate :: Wait 5 ::
                  (if exits_in_time w then [] else [Kill])
           end
      else [].
Proof.
  intros Hs. destruct (probe_run json_loads w) as (evs & Htr & _ & H).
  exists evs. split; [done|].
  destruct (test_mcp_server json_loads w).1 as [a|e|]; [|done|].
  - rewrite H. unfold farewell. by rewrite Hs.
  - destruct H as (-> & _ & _ & ->). done.
Qed.

Lemma probe_life_cycle_witness :
  ∃ evs,
    trace (test_mcp_server decode_sample refusing_child).2 =
      trace refusing_child ++ evs ∧
    life_cycle evs = [Spawn cmd; Sleep 2; Terminate; Wait 5; Kill].
Proof.
  apply (probe_life_cycle decode_sample refusing_child). reflexivity.
Defined.

(** X18.  The probe writes at most three requests, in the order
    [initialize], [tools/list], [tools/call], each at most once, and
    none after one that was not written; it writes none at all when the
    child cannot be started or its stdin is broken. *)
Theorem probe_requests_in_order json_loads w :
  ∃ evs,
    trace (test_mcp_server json_loads w).2 = trace w ++ evs ∧
    if spawn_ok w && stdin_ok w
    then probe_requests (sent_requests evs)
    else sent_requests evs = [].
Proof.
  destruct (probe_run json_loads w) as (evs & Htr & (l & HP & Hs) & _).
  exists evs. split; [done|]. rewrite Hs.
  by destruct (spawn_ok w && stdin_ok w).
Qed.

(** X19.  When the child cannot be started, the probe reports the
    exception of [Popen] with a traceback and ends normally.  The
    [finally] block then fails twice on the unbound [process], and both
    failures are swallowed: nothing is terminated and nothing more is
    printed. *)
Theorem probe_without_child json_loads w :
  spawn_ok w = false → spawned w = false →
  ∃ w',
    test_mcp_server json_loads w = (Ok tt, w') ∧
    pending w' = pending w ∧
    trace w' =
      trace w ++
      [Stdout "Connecting to running MCP server..." [];
       Stdout "Command: {}" [JStr (String.concat " " cmd)];
       StdoutError "Error running test: {}" FileNotFoundError;
       Traceback].
Proof.
  intros Hsp Hs.
  destruct (probe_wrap json_loads w (Raise FileNotFoundError) (announced w))
    as (w' & Hrun & Hp & Htr); [by apply exchange_not_started|done|].
  exists w'. split; [done|]. split; [done|].
  rewrite Htr. unfold farewell. change (spawned (announced w)) with (spawned w).
  rewrite Hs. simpl. by rewrite <-!app_assoc.
Qed.

Lemma probe_without_child_witness :
  ∃ w',
    test_mcp_server decode no_docker = (Ok tt, w') ∧
    pending w' = pending no_docker ∧
    trace w' =
      trace no_docker ++
      [Stdout "Connecting to running MCP server..." [];
       Stdout "Command: {}" [JStr (String.concat " " cmd)];
       StdoutError "Error running test: {}" FileNotFoundError;
       Traceback].
Proof.
  apply (probe_without_child decode no_docker); reflexivity.
Defined.

(** X20.  When the child's stdin is broken, the failed write is reported
    by [send_mcp_request] and counts as a failed initialize: no line of
    the child's output is read, no request reaches the child, and the
    child is terminated. *)
Theorem probe_broken_pipe json_loads w :
  spawn_ok w = true → stdin_ok w = false →
  ∃ w',
    test_mcp_server json_loads w = (Ok tt, w') ∧
    pending w' = pending w ∧
    trace w' =
      trace w ++
      [Stdout "Connecting to running MCP server..." [];
       Stdout "Command: {}" [JStr (String.concat " " cmd)];
       Spawn cmd; Sleep 2;
       Stdout (nl +:+ "=== Test 1: Initialize ===") [];
       Stdout "Sending: {}" [init_request];
       StdoutError "Error sending request: {}" BrokenPipeError;
       Stdout "❌ Initialize failed" [];
       Terminate; Wait 5] ++
      (if exits_in_time w then [] else [Kill]).
Proof.
  intros Hsp Hin.
  pose proof (exchange_first json_loads (announced w) Hsp) as He.
  rewrite send_mcp_request_run in He.
  change (stdin_ok (started (announced w))) with (stdin_ok w) in He.
  rewrite Hin in He. cbn zeta in He. cbn [has_result truthy] in He.
  unfold ret in He.
  destruct (probe_wrap json_loads w _ _ He I) as (w' & Hrun & Hp & Htr).
  exists w'. split; [done|]. split; [done|].
  rewrite Htr. unfold farewell. cbn [record spawned exits_in_time trace].
  rewrite trace_started, <-!app_assoc. done.
Qed.

Lemma probe_broken_pipe_witness :
  ∃ w',
    test_mcp_server decode deaf_child = (Ok tt, w') ∧
    pending w' = pending deaf_child ∧
    trace w' =
      trace deaf_child ++
      [Stdout "Connecting to running MCP server..." [];
       Stdout "Command: {}" [JStr (String.concat " " cmd)];
       Spawn cmd; Sleep 2;
       Stdout (nl +:+ "=== Test 1: Initialize ===") [];
       Stdout "Sending: {}" [init_request];
       StdoutError "Error sending request: {}" BrokenPipeError;
       Stdout "❌ Initialize failed" [];
       Terminate; Wait 5] ++
      (if exits_in_time deaf_child then [] else [Kill]).
Proof.
  apply (probe_broken_pipe decode deaf_child); reflexivity.
Defined.
















End McpExtras.

(** * The demo of the client *)
Module DemoFacts.
Import Py Json QdrantDemo.

Lemma requests_of_app tr1 tr2 :
  requests_of (tr1 ++ tr2) = requests_of tr1 ++ requests_of tr2.
Proof. apply omap_app. Qed.

Lemma said_app tr1 tr2 : said (tr1 ++ tr2) = said tr1 ++ said tr2.
Proof. apply omap_app. Qed.

Lemma say_run template args w :
  say template args w = (Ok tt, w ++ [Say template args]).
Proof. reflexivity. Qed.

Lemma call_run {A} (m : M Qdrant.world A) w :
  call m w = ((m []).1, w ++ (Client <$> (m []).2)).
Proof. unfold call. by destruct (m []). Qed.

Lemma talks_ret {A} (a : A) : talks (ret a).
Proof. intros w. exists []. by rewrite app_nil_r. Qed.

Lemma talks_raise {A} e : talks (@raise _ A e).
Proof. intros w. exists []. by rewrite app_nil_r. Qed.

Lemma talks_bind {A B} (m : M world A) (k : A → M world B) :
  talks m → (∀ a, talks (k a)) → talks (m ≫= k).
Proof.
  intros Hm Hk w. rewrite ProbeFacts.bind_run.
  destruct (Hm w) as (evs1 & H1 & Hr1).
  destruct (m w) as [[a|e|] w1]; simpl in H1; subst w1; [|by exists evs1..].
  destruct (Hk a (w ++ evs1)) as (evs2 & H2 & Hr2).
  exists (evs1 ++ evs2). rewrite H2, app_assoc. split; [done|].
  by rewrite requests_of_app, Hr1, Hr2.
Qed.

Lemma talks_say template args : talks (say template args).
Proof. intros w. by exists [Say template args]. Qed.

Lemma talks_subscript v key : talks (subscript v key).
Proof.
  destruct v; try apply talks_raise.
  simpl. destruct (_ !! _); [apply talks_ret|apply talks_raise].
Qed.

Lemma talks_len v : talks (len v).
Proof. destruct v; by (apply talks_ret || apply talks_raise). Qed.

Lemma talks_iterate v : talks (iterate v).
Proof. destruct v; by (apply talks_ret || apply talks_raise). Qed.

Lemma talks_for_each {A B} (xs : list A) (body : A → B → M world B) :
  (∀ x acc, talks (body x acc)) → ∀ acc, talks (for_each xs acc body).
Proof.
  intros Hb. induction xs as [|x xs IH]; intros acc; [apply talks_ret|].
  simpl. by apply talks_bind.
Qed.

Section demo.
Variable requests : Qdrant.transport.
Variable format_3f : value → result string.

Lemma talks_format_score v : talks (format_score format_3f v).
Proof. intros w. exists []. by rewrite app_nil_r. Qed.

Lemma talks_show_result i result : talks (show_result format_3f i result).
Proof.
  unfold show_result.
  repeat first
    [ apply talks_say | apply talks_subscript | apply talks_format_score
    | apply talks_bind; [|intros ?; cbv beta] ].
Qed.

(** What one call of the client adds to the trace of the demo. *)
Lemma requests_of_call r tail :
  (tail = [] ∨ ∃ message e, tail = [Qdrant.Stdout message e]) →
  requests_of (Client <$> Qdrant.Sent r :: tail) = [r].
Proof. by intros [->|(message & e & ->)]. Qed.

(** A method of the shape of [health_check], [list_collections] and
    [search_points], against a service that answers: it returns, having
    sent its request and printed one line at most. *)
Lemma guarded_json_answers {A} r (k : value → M Qdrant.world A) (other : A)
    message sentinel :
  answers requests →
  (∀ data, Qdrant.inspects (k data)) →
  ∃ a tail,
    try_except
      (response ← Qdrant.send requests r;
       if (Qdrant.status_code response =? 200)%Z then
         data ← Qdrant.response_json response; k data
       else ret other)
      is_Exception (λ e, Qdrant.print message e ;; ret sentinel) []
    = (Ok a, Qdrant.Sent r :: tail) ∧
    (tail = [] ∨ ∃ message e, tail = [Qdrant.Stdout message e]).
Proof.
  intros ([Ht Hp] & Hh & Hj) Hk. rewrite QdrantFacts.guarded_run.
  destruct (requests r) as [resp|e|] eqn:Hr; [| |by destruct (Hh r)].
  - destruct (Qdrant.status_code resp =? 200)%Z; [|by exists other, []; auto].
    rewrite ProbeFacts.bind_run. unfold Qdrant.response_json.
    destruct (Qdrant.json resp) as [data|e|] eqn:Hd;
      [| |by destruct (Hj r resp Hr)].
    + destruct (Hk data ([] ++ [Qdrant.Sent r])) as [[a ->]|(e & -> & ->)].
      * exists a, []. auto.
      * exists sentinel, [Qdrant.Stdout message e]. eauto.
    + rewrite (Hp _ _ _ Hr Hd). exists sentinel, [Qdrant.Stdout message e].
      eauto.
  - rewrite (Ht _ _ Hr). exists sentinel, [Qdrant.Stdout message e]. eauto.
Qed.

(** The same for [create_collection] and [upsert_points]. *)
Lemma guarded_status_answers r (k : Qdrant.response → bool) message :
  answers requests →
  ∃ a tail,
    try_except
      (response ← Qdrant.send requests r; ret (k response))
      is_Exception (λ e, Qdrant.print message e ;; ret false) []
    = (Ok a, Qdrant.Sent r :: tail) ∧
    (tail = [] ∨ ∃ message e, tail = [Qdrant.Stdout message e]).
Proof.
  intros ([Ht Hp] & Hh & Hj). rewrite QdrantFacts.guarded_run.
  destruct (requests r) as [resp|e|] eqn:Hr; [| |by destruct (Hh r)].
  - exists (k resp), []. auto.
  - rewrite (Ht _ _ Hr). exists false, [Qdrant.Stdout message e]. eauto.
Qed.

(** The demo against a healthy service that answers, up to the search:
    the five requests are sent, and the results of the search are
    counted and printed next. *)
Lemma main_healthy w :
  answers requests →
  (Qdrant.health_check requests Qdrant.default_client []).1 = Ok true →
  ∃ evs results,
    main requests format_3f w =
      (n ← len results;
       say "🔍 Found {} similar vectors:" [JInt (Z.of_nat n)] ;;
       items ← iterate results;
       for_each (enumerate 1 items) tt
         (λ numbered _, show_result format_3f numbered.1 numbered.2) ;;
       say "🎉 Qdrant examples completed successfully!" [] ;;
       say (nl +:+ "💡 Next steps:") [] ;;
       say "  - Integrate with OpenAI embeddings API" [] ;;
       say "  - Connect to prompt-alchemy storage system" [] ;;
       say "  - Implement semantic search for prompts" []) (w ++ evs) ∧
    requests_of evs = demo_requests ∧
    (Qdrant.search_points requests Qdrant.default_client collection_name
       query_vector (JInt 3) (JFloat 5 (-1)) []).1 = Ok results.
Proof.
  intros Hans Hhealthy. unfold main. cbv zeta.
  do 3 (rewrite ProbeFacts.bind_run, say_run; cbv beta iota).
  rewrite ProbeFacts.bind_run, call_run.
  destruct (guarded_json_answers
              (Qdrant.health_request Qdrant.default_client)
              (λ data, status ← get data "status" JNull;
                       ret (eq_str status "ok"))
              false "Health check failed: " false Hans)
    as (healthy & tail1 & Hrun1 & Htail1).
  { intros data. apply QdrantFacts.inspects_bind;
      [apply QdrantFacts.inspects_get|].
    intros status. apply QdrantFacts.inspects_ret. }
  fold (Qdrant.health_check requests Qdrant.default_client) in Hrun1.
  rewrite Hrun1 in Hhealthy |- *. injection Hhealthy as ->.
  cbn [fst snd]. cbv beta iota.
  do 2 (rewrite ProbeFacts.bind_run, say_run; cbv beta iota).
  rewrite ProbeFacts.bind_run, call_run.
  destruct (guarded_json_answers
              (Qdrant.list_request Qdrant.default_client)
              Qdrant.collection_names [] "Failed to list collections: " []
              Hans QdrantFacts.inspects_collection_names)
    as (collections & tail2 & Hrun2 & Htail2).
  fold (Qdrant.list_collections requests Qdrant.default_client) in Hrun2.
  rewrite Hrun2. cbn [fst snd]. cbv beta iota.
  do 2 (rewrite ProbeFacts.bind_run, say_run; cbv beta iota).
  rewrite ProbeFacts.bind_run, call_run.
  destruct (guarded_status_answers
              (Qdrant.create_request Qdrant.default_client collection_name
                 (JInt 1536))
              (λ response, (Qdrant.status_code response =? 200)%Z ||
                           (Qdrant.status_code response =? 201)%Z)
              "Failed to create collection: " Hans)
    as (created & tail3 & Hrun3 & Htail3).
  change (Qdrant.call_create_collection requests Qdrant.default_client
            collection_name [] [("vector_size", JInt 1536)])
    with (Qdrant.create_collection requests Qdrant.default_client
            collection_name (JInt 1536)).
  fold (Qdrant.create_collection requests Qdrant.default_client
          collection_name (JInt 1536)) in Hrun3.
  rewrite Hrun3. cbn [fst snd]. cbv beta iota.
  rewrite ProbeFacts.bind_run.
  assert (∃ line3,
            (if created
             then say "✅ Collection created successfully!" []
             else say "⚠️  Collection might already exist or creation failed"
                    [])
            = say line3 []) as [line3 ->] by (destruct created; eauto).
  rewrite say_run. cbv beta iota.
  rewrite ProbeFacts.bind_run, say_run. cbv beta iota.
  rewrite ProbeFacts.bind_run, call_run.
  destruct (guarded_status_answers
              (Qdrant.upsert_request Qdrant.default_client collection_name
                 sample_points)
              (λ response, (Qdrant.status_code response =? 200)%Z)
              "Failed to upsert points: " Hans)
    as (added & tail4 & Hrun4 & Htail4).
  fold (Qdrant.upsert_points requests Qdrant.default_client collection_name
          sample_points) in Hrun4.
  rewrite Hrun4. cbn [fst snd]. cbv beta iota.
  rewrite ProbeFacts.bind_run.
  assert (∃ line4,
            (if added
             then say "✅ Sample vectors added successfully!" []
             else say "❌ Failed to add sample vectors" [])
            = say line4 []) as [line4 ->] by (destruct added; eauto).
  rewrite say_run. cbv beta iota.
  rewrite ProbeFacts.bind_run, say_run. cbv beta iota.
  rewrite ProbeFacts.bind_run, call_run.
  destruct (guarded_json_answers
              (Qdrant.search_request Qdrant.default_client collection_name
                 query_vector (JInt 3) (JFloat 5 (-1)))
              (λ data, get data "result" (JList [])) (JList [])
              "Search failed: " (JList []) Hans)
    as (results & tail5 & Hrun5 & Htail5).
  { intros data. apply QdrantFacts.inspects_get. }
  fold (Qdrant.search_points requests Qdrant.default_client collection_name
          query_vector (JInt 3) (JFloat 5 (-1))) in Hrun5.
  rewrite Hrun5. cbn [fst snd]. cbv beta iota.
  eexists _, results.
  split; [rewrite <-!app_assoc; reflexivity|]. split; [|done].
  rewrite !requests_of_app, !requests_of_call by done. reflexivity.
Qed.

End demo.
End DemoFacts.

(** * The demo: properties *)
Module DemoExtras.
Import Py Json QdrantDemo DemoFacts.

Lemma unscored_service_answers : answers unscored_service.
Proof.
  assert (∀ r, ∃ data, unscored_service r =
                       Ok (Qdrant.Response 200 (Ok data))) as H.
  { intros r. unfold unscored_service.
    destruct (String.eqb _ _); [by eexists|].
    destruct (Qdrant.method r); by eexists. }
  split; [split|split].
  - intros r e. destruct (H r) as [data ->]. done.
  - intros r resp e. destruct (H r) as [data ->]. by intros [= <-].
  - intros r. destruct (H r) as [data ->]. done.
  - intros r resp. destruct (H r) as [data ->]. by intros [= <-].
Qed.

(** X27.  When the health check returns [False], the demo stops there:
    it has sent the health request and no other, it prints that Qdrant is
    not responding, and it returns normally, so that the script exits
    with status 0. *)
Theorem demo_stops_when_unhealthy requests format_3f w :
  (Qdrant.health_check requests Qdrant.default_client []).1 = Ok false →
  ∃ tr,
    main requests format_3f w = (Ok tt, w ++ tr) ∧
    exit_status (main requests format_3f w).1 = Some 0%Z ∧
    requests_of tr = [Qdrant.health_request Qdrant.default_client] ∧
    said tr = ["🔍 Qdrant Vector Database Examples"; times "=" 50;
               "1. Health Check..."; "❌ Qdrant is not responding"].
Proof.
  intros Hh.
  destruct (QdrantExtras.guarded_json_world requests
              (Qdrant.health_request Qdrant.default_client)
              (λ data, status ← get data "status" JNull;
                       ret (eq_str status "ok"))
              false "Health check failed: " false [])
    as (tail & Htr & Htail).
  { intros data. apply QdrantFacts.inspects_bind;
      [apply QdrantFacts.inspects_get|].
    intros status. apply QdrantFacts.inspects_ret. }
  fold (Qdrant.health_check requests Qdrant.default_client) in Htr.
  assert (main requests format_3f w =
          (Ok tt,
           w ++ [Say "🔍 Qdrant Vector Database Examples" [];
                 Say (times "=" 50) []; Say "1. Health Check..." []] ++
           (Client <$> Qdrant.Sent
                         (Qdrant.health_request Qdrant.default_client)
                       :: tail) ++
           [Say "❌ Qdrant is not responding" []])) as Hrun.
  { unfold main. cbv zeta.
    do 3 (rewrite ProbeFacts.bind_run, say_run; cbv beta iota).
    rewrite ProbeFacts.bind_run, call_run, Hh, Htr. cbv beta iota.
    rewrite say_run, <-!app_assoc. reflexivity. }
  eexists. split; [exact Hrun|]. rewrite Hrun. split; [done|].
  assert (requests_of (Client <$> tail) = [] ∧ said (Client <$> tail) = [])
    as [Hr Hs] by by destruct Htail as [->|(e & ->)].
  split.
  - rewrite !requests_of_app. cbn [fmap list_fmap].
    change (requests_of (Client (Qdrant.Sent ?r) :: ?l))
      with (r :: requests_of l).
    by rewrite Hr.
  - rewrite !said_app. cbn [fmap list_fmap].
    change (said (Client ?e :: ?l)) with (said l).
    by rewrite Hs.
Qed.

Lemma demo_stops_when_unhealthy_witness :
  ∃ tr,
    main Qdrant.refused format_whole [] = (Ok tt, [] ++ tr) ∧
    exit_status (main Qdrant.refused format_whole []).1 = Some 0%Z ∧
    requests_of tr = [Qdrant.health_request Qdrant.default_client] ∧
    said tr = ["🔍 Qdrant Vector Database Examples"; times "=" 50;
               "1. Health Check..."; "❌ Qdrant is not responding"].
Proof.
  apply (demo_stops_when_unhealthy Qdrant.refused format_whole []).
  reflexivity.
Defined.

(** X28.  Against a service that answers and is healthy, the demo sends
    five requests, in this order: the health check, the listing, the
    creation of [prompt_embeddings] with vectors of size 1536, the upsert
    of the three sample points, and a search with limit 3 and the default
    threshold 0.5.  A failed creation or upsert does not stop it, and
    whatever the search returns, nothing more is sent. *)
Theorem demo_requests_in_order requests format_3f w :
  answers requests →
  (Qdrant.health_check requests Qdrant.default_client []).1 = Ok true →
  requests_of (main requests format_3f w).2 = requests_of w ++ demo_requests.
Proof.
  intros Hans Hh.
  destruct (main_healthy requests format_3f w Hans Hh)
    as (evs & results & -> & Hr & _).
  match goal with
  | |- context [(?m ≫= ?k) (w ++ evs)] =>
      assert (talks (m ≫= k)) as Ht
  end.
  { repeat first
      [ apply talks_say | apply talks_len | apply talks_iterate
      | apply talks_for_each; intros; apply talks_show_result
      | apply talks_bind; [|intros ?; cbv beta] ]. }
  destruct (Ht (w ++ evs)) as (evs2 & -> & Hr2).
  by rewrite !requests_of_app, Hr, Hr2, app_nil_r.
Qed.

Lemma demo_requests_in_order_witness :
  requests_of (main unscored_service format_whole []).2 =
  requests_of [] ++ demo_requests.
Proof.
  apply (demo_requests_in_order unscored_service format_whole []).
  - apply unscored_service_answers.
  - reflexivity.
Defined.

(** X29.  The loop that prints the search results is not guarded as the
    methods of the client are.  When the service answers the search with
    a list whose first hit has no ["score"], the demo raises [KeyError]
    after its five requests, before it has printed anything about the
    hit, and the script exits with status 1. *)
Theorem demo_unscored_hit requests format_3f w kvs hit hits :
  answers requests →
  (Qdrant.health_check requests Qdrant.default_client []).1 = Ok true →
  requests (Qdrant.search_request Qdrant.default_client collection_name
              query_vector (JInt 3) (JFloat 5 (-1)))
    = Ok (Qdrant.Response 200 (Ok (JDict kvs))) →
  kvs !! "result" = Some (JList (JDict hit :: hits)) →
  hit !! "score" = None →
  ∃ tr,
    main requests format_3f w = (Raise KeyError, w ++ tr) ∧
    exit_status (main requests format_3f w).1 = Some 1%Z ∧
    requests_of tr = demo_requests ∧
    last (said tr) = Some "🔍 Found {} similar vectors:".
Proof.
  intros Hans Hh Hsearch Hk Hscore.
  destruct (main_healthy requests format_3f w Hans Hh)
    as (evs & results & Hrun & Hr & Hres).
  assert (results = JList (JDict hit :: hits)) as ->.
  { unfold Qdrant.search_points in Hres.
    rewrite QdrantFacts.guarded_run, Hsearch in Hres.
    cbn [Qdrant.status_code] in Hres.
    change (200 =? 200)%Z with true in Hres. cbv iota in Hres.
    rewrite ProbeFacts.bind_run in Hres.
    unfold Qdrant.response_json in Hres. cbn [Qdrant.json] in Hres.
    cbn [get] in Hres. unfold ret in Hres. rewrite Hk in Hres.
    simpl in Hres. congruence. }
  assert (main requests format_3f w =
          (Raise KeyError,
           w ++ evs ++
           [Say "🔍 Found {} similar vectors:"
              [JInt (Z.of_nat (length (JDict hit :: hits)))]])) as Hmain.
  { rewrite Hrun.
    rewrite ProbeFacts.bind_run. cbn [len]. rewrite ProbeFacts.ret_run.
    cbv beta iota.
    rewrite ProbeFacts.bind_run, say_run. cbv beta iota.
    rewrite ProbeFacts.bind_run. cbn [iterate]. rewrite ProbeFacts.ret_run.
    cbv beta iota.
    rewrite ProbeFacts.bind_run. cbn [enumerate].
    rewrite ProbeFacts.for_each_step. cbn [fst snd].
    unfold show_result at 1. rewrite ProbeFacts.bind_run.
    cbn [subscript]. rewrite Hscore. unfold raise.
    by rewrite <-app_assoc. }
  eexists. split; [exact Hmain|]. rewrite Hmain. split; [done|].
  split.
  - by rewrite requests_of_app, Hr, app_nil_r.
  - rewrite said_app. cbn. by rewrite last_snoc.
Qed.

Lemma demo_unscored_hit_witness :
  ∃ tr,
    main unscored_service format_whole [] = (Raise KeyError, [] ++ tr) ∧
    exit_status (main unscored_service format_whole []).1 = Some 1%Z ∧
    requests_of tr = demo_requests ∧
    last (said tr) = Some "🔍 Found {} similar vectors:".
Proof.
  apply (demo_unscored_hit unscored_service format_whole []
           {[ "result" := JList [unscored_hit] ]}
           {[ "id" := JInt 1;
              "payload" := JDict {[ "text" := JStr "Generate a REST API" ]} ]}
           []).
  - apply unscored_service_answers.
  - reflexivity.
  - reflexivity.
  - reflexivity.
  - reflexivity.
Defined.

Lemma health_only_service_answers : answers health_only_service.
Proof.
  assert (∀ r, health_only_service r =
               Ok (Qdrant.Response 200 (Ok healthy_body)) ∨
               health_only_service r = Raise ConnectionError) as H.
  { intros r. unfold health_only_service. destruct (String.eqb _ _); auto. }
  split; [split|split].
  - intros r e. destruct (H r) as [->| ->]; [done|]. by intros [= <-].
  - intros r resp e. destruct (H r) as [->| ->]; [|done]. by intros [= <-].
  - intros r. by destruct (H r) as [->| ->].
  - intros r resp. destruct (H r) as [->| ->]; [|done]. by intros [= <-].
Qed.

(** X30.  A search that fails is taken for a search without hits.  When
    the search request does not come back with status 200, against a
    service that is healthy and answers, the demo prints that it found 0
    similar vectors, then that the examples completed successfully, and
    returns normally after its five requests. *)
Theorem demo_completes_without_results requests format_3f w :
  answers requests →
  (Qdrant.health_check requests Qdrant.default_client []).1 = Ok true →
  (∀ resp,
     requests (Qdrant.search_request Qdrant.default_client collection_name
                 query_vector (JInt 3) (JFloat 5 (-1))) = Ok resp →
     Qdrant.status_code resp ≠ 200%Z) →
  ∃ tr,
    main requests format_3f w =
      (Ok tt,
       w ++ tr ++
       [Say "🔍 Found {} similar vectors:" [JInt 0];
        Say "🎉 Qdrant examples completed successfully!" [];
        Say (nl +:+ "💡 Next steps:") [];
        Say "  - Integrate with OpenAI embeddings API" [];
        Say "  - Connect to prompt-alchemy storage system" [];
        Say "  - Implement semantic search for prompts" []]) ∧
    requests_of tr = demo_requests.
Proof.
  intros Hans Hh Hsearch.
  destruct (main_healthy requests format_3f w Hans Hh)
    as (evs & results & Hrun & Hr & Hres).
  assert (results = JList []) as ->.
  { unfold Qdrant.search_points in Hres.
    rewrite QdrantFacts.guarded_run in Hres.
    destruct Hans as ([Ht _] & Hhang & _).
    destruct (requests _) as [resp|e|] eqn:Hreq.
    - specialize (Hsearch resp eq_refl). apply Z.eqb_neq in Hsearch.
      rewrite Hsearch in Hres. cbn in Hres. congruence.
    - rewrite (Ht _ _ Hreq) in Hres. cbn in Hres. congruence.
    - by destruct (Hhang _ Hreq). }
  exists evs. split; [|done]. rewrite Hrun.
  rewrite ProbeFacts.bind_run. cbn [len]. rewrite ProbeFacts.ret_run.
  cbv beta iota.
  rewrite ProbeFacts.bind_run, say_run. cbv beta iota.
  rewrite ProbeFacts.bind_run. cbn [iterate]. rewrite ProbeFacts.ret_run.
  cbv beta iota.
  rewrite ProbeFacts.bind_run. cbn [enumerate for_each].
  rewrite ProbeFacts.ret_run. cbv beta iota.
  do 4 (rewrite ProbeFacts.bind_run, say_run; cbv beta iota).
  rewrite say_run, <-!app_assoc. reflexivity.
Qed.

Lemma demo_completes_without_results_witness :
  ∃ tr,
    main health_only_service format_whole [] =
      (Ok tt,
       [] ++ tr ++
       [Say "🔍 Found {} similar vectors:" [JInt 0];
        Say "🎉 Qdrant examples completed successfully!" [];
        Say (nl +:+ "💡 Next steps:") [];
        Say "  - Integrate with OpenAI embeddings API" [];
        Say "  - Connect to prompt-alchemy storage system" [];
        Say "  - Implement semantic search for prompts" []]) ∧
    requests_of tr = demo_requests.
Proof.
  apply (demo_completes_without_results health_only_service format_whole []).
  - apply health_only_service_answers.
  - reflexivity.
  - intros resp. discriminate.
Defined.

End DemoExtras.
